(** * Nearest-centroid clustering of sales records (project.py)

    A shallow embedding of the computational core of [project.py]:
    the revenue normalisation of [load_data], [calculate_distances],
    [assign_cluster], the per-record loop of [main] with its existing-label
    chain, [analyze_cluster_characteristics], and the summary figures of
    [create_excel_report].

    Modelling conventions.
    - A finite Python float is modelled by the rational it denotes ([Q]):
      arithmetic is exact, rounding is not modelled.  Python's [==] and [<]
      on such numbers are [Qeq_bool] and [Qltb].  Revenues, centroids and
      distances are finite.  The non-finite floats appear where the code
      produces them: [float()] of a spelling of infinity or NaN, and the
      mean of an empty selection ([pyfloat]).
    - An exception is an explicit error result ([result]).
    - A pandas DataFrame of clustering results is the list of its rows, each
      row a record with the columns the code reads; a selection
      [df[mask]] is a [filter].  The empty list is the empty table that has
      these columns (a frame built by [pd.DataFrame([])] has none, and every
      column access on it raises [KeyError]; such frames are not modelled).
    - A [dict] whose iteration order matters ([Counter]) is an association
      list in insertion order.
    - Of the workbook, the summary values, the cluster lines below them
      and the data rows of the Mismatches and Centroids sheets are modelled,
      with the refusal of NaN by the spreadsheet writer; cell formats, the
      file itself and the printing to the console are not. *)

From Stdlib Require Import List Bool Arith ZArith QArith Qabs Lia Sorted
  Permutation.
From Stdlib Require Import Strings.String Strings.Ascii.
From Stdlib Require Import Lqa Qround.
From Stdlib Require DecimalString DecimalNat.
Import ListNotations.

(** [length] is the length of a list throughout; a string's is written
    [String.length]. *)
Abbreviation length := Datatypes.length.

Local Open Scope Q_scope.

(** ** Exceptions *)

Inductive exn : Type :=
| ValueError
| ZeroDivisionError
| TypeError
| KeyError.

(** [ValueError] is what Python raises for an argument of the right type and
    an inappropriate value: the code's form of an invalid-argument error. *)

Inductive result (A : Type) : Type :=
| Ok (a : A)
| Raise (e : exn).

Arguments Ok {A} a.
Arguments Raise {A} e.

Definition bind {A B : Type} (r : result A) (k : A -> result B) : result B :=
  match r with
  | Ok a => k a
  | Raise e => Raise e
  end.

Notation "x <- r ;; k" := (bind r (fun x => k))
  (at level 61, r at next level, right associativity).

(** ** Numbers *)

(** Python's [x < y] on finite floats. *)
Definition Qltb (x y : Q) : bool := negb (Qle_bool y x).

(** ** Built-ins used by the assigner *)

(** [min(iterable)]: the first item is the running minimum; a later item
    replaces it only when it compares strictly smaller.  An empty argument
    raises [ValueError]. *)
Definition min_step (m y : Q) : Q := if Qltb y m then y else m.

Definition py_min (l : list Q) : result Q :=
  match l with
  | [] => Raise ValueError
  | x :: xs => Ok (fold_left min_step xs x)
  end.

(** [list.index(x)]: position of the first item equal to [x]; [ValueError]
    when there is none. *)
Fixpoint py_index (x : Q) (l : list Q) : result nat :=
  match l with
  | [] => Raise ValueError
  | y :: ys =>
      if Qeq_bool y x then Ok 0%nat
      else i <- py_index x ys ;; Ok (S i)
  end.

(** ** Distance engine and cluster assigner *)

(** [return [abs(omset - centroid) for centroid in centroids]] *)
Definition calculate_distances (omset : Q) (centroids : list Q) : list Q :=
  map (fun centroid => Qabs (omset - centroid)) centroids.

(** [return distances.index(min(distances)) + 1] *)
Definition assign_cluster (distances : list Q) : result nat :=
  m <- py_min distances ;;
  i <- py_index m distances ;;
  Ok (i + 1)%nat.

(** The centroids fixed in [main]. *)
Definition centroids : list Q := [424000.00; 915000.00; 689155580.85].

(** The position [i] holds the first minimum of [l]: no item is smaller, and
    every earlier item is strictly larger. *)
Definition first_minimum (l : list Q) (i : nat) : Prop :=
  (i < length l)%nat /\
  (forall j, (j < length l)%nat -> nth i l 0 <= nth j l 0) /\
  (forall j, (j < i)%nat -> nth i l 0 < nth j l 0).

(** ** Values read from the JSON file *)

(** A scalar as [json.load] delivers it. *)
Inductive pyval : Type :=
| PStr (s : string)
| PInt (z : Z)
| PFloat (q : Q)
| PBool (b : bool)
| PNone.

(** [v == s] for a string literal [s]: true only of a string with the same
    text; a number or a boolean never equals a string. *)
Definition py_eq_str (v : pyval) (s : string) : bool :=
  match v with
  | PStr t => String.eqb t s
  | _ => false
  end.

(** A row of the loaded DataFrame (revenue already numeric). *)
Record SalesRow : Type := {
  row_Data_id : pyval;
  row_Nama_Toko : pyval;
  row_nama_Produk : string;
  row_Omset : Q;
  Kluster_1 : pyval;
  Kluster_2 : pyval;
  Kluster_3 : pyval
}.

(** A row of [results_df]; [Existing_Cluster = None] is Python's [None]. *)
Record ResultRow : Type := {
  Data_id : pyval;
  Nama_Toko : pyval;
  nama_Produk : string;
  Omset : Q;
  Calculated_Cluster : nat;
  Existing_Cluster : option nat;
  Distances : list Q
}.

(** ** The per-record loop of [main] *)

(** The [if]/[elif] chain that sets [existing_cluster]. *)
Definition existing_cluster (row : SalesRow) : option nat :=
  if py_eq_str (Kluster_1 row) "1"%string then Some 1%nat
  else if py_eq_str (Kluster_2 row) "1"%string then Some 2%nat
  else if py_eq_str (Kluster_3 row) "1"%string then Some 3%nat
  else None.

(** The body of the loop: one result record per row. *)
Definition process_row (cs : list Q) (row : SalesRow) : result ResultRow :=
  let omset := row_Omset row in
  let distances := calculate_distances omset cs in
  assigned_cluster <- assign_cluster distances ;;
  Ok {| Data_id := row_Data_id row;
        Nama_Toko := row_Nama_Toko row;
        nama_Produk := row_nama_Produk row;
        Omset := omset;
        Calculated_Cluster := assigned_cluster;
        Existing_Cluster := existing_cluster row;
        Distances := distances |}.

(** [for index, row in df.iterrows(): ... results.append(...)] *)
Fixpoint main_loop (cs : list Q) (df : list SalesRow) (results : list ResultRow)
  : result (list ResultRow) :=
  match df with
  | [] => Ok results
  | row :: rest =>
      r <- process_row cs row ;;
      main_loop cs rest (results ++ [r])
  end.

Definition main_results (df : list SalesRow) : result (list ResultRow) :=
  main_loop centroids df [].

(** ** Cluster analyzer *)

(** A float as pandas and [float()] can deliver it: a finite value, an
    infinity, or NaN. *)
Inductive pyfloat : Type :=
| PFin (q : Q)
| PInf (negative : bool)
| PNaN.

Definition Qsum (l : list Q) : Q := fold_left Qplus l 0.

(** [Series.mean()]: the sum over the count; for an empty selection pandas
    returns NaN and raises nothing. *)
Definition pd_mean (l : list Q) : pyfloat :=
  match l with
  | [] => PNaN
  | _ :: _ => PFin (Qsum l / inject_Z (Z.of_nat (length l)))
  end.

(** [Counter]'s counting step, [self[elem] = self.get(elem, 0) + 1], on a
    dict kept in insertion order: a known key keeps its place, a new key
    goes to the end. *)
Fixpoint counter_add (elem : string) (c : list (string * nat))
  : list (string * nat) :=
  match c with
  | [] => [(elem, 1%nat)]
  | (k, n) :: c' =>
      if String.eqb k elem then (k, S n) :: c'
      else (k, n) :: counter_add elem c'
  end.

(** [Counter(iterable)] *)
Definition Counter (l : list string) : list (string * nat) :=
  fold_left (fun c elem => counter_add elem c) l [].

(** [sorted(items, key=itemgetter(1), reverse=True)]: a stable sort by
    descending count (items of equal count keep their order). *)
Fixpoint insert_desc (x : string * nat) (l : list (string * nat))
  : list (string * nat) :=
  match l with
  | [] => [x]
  | y :: l' =>
      if (snd x <? snd y)%nat then y :: insert_desc x l'
      else x :: y :: l'
  end.

Definition sorted_desc (l : list (string * nat)) : list (string * nat) :=
  fold_right insert_desc [] l.

(** [Counter.most_common(n)], that is [heapq.nlargest(n, items, key=count)],
    which is [sorted(items, key=count, reverse=True)[:n]]. *)
Definition most_common (n : nat) (c : list (string * nat))
  : list (string * nat) :=
  firstn n (sorted_desc c).

Record ClusterProfile : Type := {
  avg_omset : pyfloat;
  characteristics : string;
  dominant_products : list string
}.

(** [d[key] = value] and [d[key]] on a dict with integer keys. *)
Fixpoint dict_set {V : Type} (key : nat) (value : V) (d : list (nat * V))
  : list (nat * V) :=
  match d with
  | [] => [(key, value)]
  | (k, v) :: d' =>
      if (k =? key)%nat then (k, value) :: d'
      else (k, v) :: dict_set key value d'
  end.

Fixpoint dict_get {V : Type} (d : list (nat * V)) (key : nat) : option V :=
  match d with
  | [] => None
  | (k, v) :: d' => if (k =? key)%nat then Some v else dict_get d' key
  end.

(** The body of the loop over the cluster ids. *)
Definition cluster_profile (results_df : list ResultRow) (cluster : nat)
  : ClusterProfile :=
  let cluster_data :=
    filter (fun r => (Calculated_Cluster r =? cluster)%nat) results_df in
  let avg := pd_mean (map Omset cluster_data) in
  let product_counts := Counter (map nama_Produk cluster_data) in
  let top_products := most_common 3 product_counts in
  let chars :=
    if (cluster =? 1)%nat then
      "Toko dengan penjualan rendah atau baru memulai"%string
    else if (cluster =? 2)%nat then
      "Toko dengan stabilitas penjualan menengah"%string
    else
      "Toko dengan performa penjualan tinggi"%string in
  {| avg_omset := avg;
     characteristics := chars;
     dominant_products := map fst top_products |}.

(** [for cluster in [1, 2, 3]: ... cluster_analysis[cluster] = {...}] *)
Definition analyze_cluster_characteristics (results_df : list ResultRow)
  : list (nat * ClusterProfile) :=
  fold_left
    (fun cluster_analysis cluster =>
       dict_set cluster (cluster_profile results_df cluster) cluster_analysis)
    [1; 2; 3]%nat [].

(** ** Summary figures of the report *)

(** One item of the column comparison
    [results_df['Calculated Cluster'] == results_df['Existing Cluster']]:
    a missing label equals no cluster id. *)
Definition cluster_eq (calculated : nat) (existing : option nat) : bool :=
  match existing with
  | Some e => (calculated =? e)%nat
  | None => false
  end.

(** [sum(results_df['Calculated Cluster'] == results_df['Existing Cluster'])] *)
Definition matching_clusters (results_df : list ResultRow) : nat :=
  length
    (filter (fun r => cluster_eq (Calculated_Cluster r) (Existing_Cluster r))
       results_df).

(** [a / b] on integers: true division, [ZeroDivisionError] for a zero
    divisor. *)
Definition py_truediv (a b : nat) : result Q :=
  if (b =? 0)%nat then Raise ZeroDivisionError
  else Ok (inject_Z (Z.of_nat a) / inject_Z (Z.of_nat b)).

(** [value_counts().sort_index().get(k, 0)] of a column. *)
Definition calc_count (results_df : list ResultRow) (k : nat) : nat :=
  length (filter (fun r => (Calculated_Cluster r =? k)%nat) results_df).

Definition exist_count (results_df : list ResultRow) (k : nat) : nat :=
  length (filter (fun r => cluster_eq k (Existing_Cluster r)) results_df).

Record Summary : Type := {
  Total_Records : nat;
  Matching_Clusters : nat;
  Match_Percentage : Q;
  Count_Calculated : list nat;
  Count_Existing : list nat
}.

(** The ['Value'] list of [summary_data]. *)
Definition summary_data (results_df : list ResultRow) : result Summary :=
  let total := length results_df in
  let matching := matching_clusters results_df in
  ratio <- py_truediv matching total ;;
  Ok {| Total_Records := total;
        Matching_Clusters := matching;
        Match_Percentage := ratio * 100;
        Count_Calculated := map (calc_count results_df) [1; 2; 3]%nat;
        Count_Existing := map (exist_count results_df) [1; 2; 3]%nat |}.

(** ** Data loader: revenue text to float *)

(** [s.replace(old, new)] for a one-character [old]: every occurrence of the
    character is replaced. *)
Fixpoint str_replace (old : ascii) (new s : string) : string :=
  match s with
  | EmptyString => EmptyString
  | String c s' =>
      if Ascii.eqb c old then (new ++ str_replace old new s')%string
      else String c (str_replace old new s')
  end.

(** *** [float(str)] on ASCII text

    Surrounding whitespace is dropped, single underscores between digits are
    dropped, and what remains must be, after an optional sign, a spelling of
    infinity or NaN, or digits with an optional point and an optional
    exponent.  Anything else raises [ValueError]. *)

Definition is_space (c : ascii) : bool :=
  let n := nat_of_ascii c in
  ((9 <=? n) && (n <=? 13) || (n =? 32))%nat.

Definition is_digit (c : ascii) : bool :=
  let n := nat_of_ascii c in
  ((48 <=? n) && (n <=? 57))%nat.

Definition digit_value (c : ascii) : Z := Z.of_nat (nat_of_ascii c - 48).

Definition to_lower (c : ascii) : ascii :=
  let n := nat_of_ascii c in
  if ((65 <=? n) && (n <=? 90))%nat then ascii_of_nat (n + 32) else c.

Fixpoint drop_while (p : ascii -> bool) (l : list ascii) : list ascii :=
  match l with
  | [] => []
  | c :: l' => if p c then drop_while p l' else l
  end.

(** The longest prefix of characters satisfying [p], and the rest. *)
Fixpoint span (p : ascii -> bool) (l : list ascii) : list ascii * list ascii :=
  match l with
  | [] => ([], [])
  | c :: l' =>
      if p c then let (a, b) := span p l' in (c :: a, b)
      else ([], l)
  end.

Definition strip (l : list ascii) : list ascii :=
  rev (drop_while is_space (rev (drop_while is_space l))).

(** Underscores: allowed only between two digits; they are dropped.
    [prev] is the character before the current one. *)
Fixpoint drop_underscores (prev : option ascii) (l : list ascii)
  : option (list ascii) :=
  match l with
  | [] =>
      match prev with
      | Some "_"%char => None
      | _ => Some []
      end
  | c :: l' =>
      if Ascii.eqb c "_" then
        match prev with
        | Some d => if is_digit d then drop_underscores (Some c) l' else None
        | None => None
        end
      else
        let after_underscore :=
          match prev with
          | Some "_"%char => true
          | _ => false
          end in
        if after_underscore && negb (is_digit c) then None
        else option_map (cons c) (drop_underscores (Some c) l')
  end.

Definition digits_value (ds : list ascii) : Z :=
  fold_left (fun acc c => 10 * acc + digit_value c)%Z ds 0%Z.

Definition split_sign (l : list ascii) : bool * list ascii :=
  match l with
  | [] => (false, [])
  | c :: l' =>
      if Ascii.eqb c "-" then (true, l')
      else if Ascii.eqb c "+" then (false, l')
      else (false, l)
  end.

(** The exponent part: nothing, or [e]/[E], an optional sign and at least
    one digit, up to the end of the text. *)
Definition parse_exponent (l : list ascii) : option Z :=
  match l with
  | [] => Some 0%Z
  | c :: l' =>
      if Ascii.eqb (to_lower c) "e" then
        let (neg, ds) := split_sign l' in
        match ds with
        | [] => None
        | _ :: _ =>
            if forallb is_digit ds then
              Some (if neg then - digits_value ds else digits_value ds)%Z
            else None
        end
      else None
  end.

(** Digits, an optional point, digits (at least one digit in all), and the
    exponent part. *)
Definition parse_number (l : list ascii) : option Q :=
  let (int_part, r1) := span is_digit l in
  let (frac_part, r2) :=
    match r1 with
    | "."%char :: r => span is_digit r
    | _ => ([], r1)
    end in
  match int_part ++ frac_part with
  | [] => None
  | _ :: _ =>
      match parse_exponent r2 with
      | Some e =>
          Some (inject_Z (digits_value (int_part ++ frac_part))
                * Qpower 10 (e - Z.of_nat (length frac_part)))
      | None => None
      end
  end.

Definition parse_inf_or_nan (negative : bool) (l : list ascii)
  : option pyfloat :=
  let w := string_of_list_ascii (map to_lower l) in
  if (String.eqb w "inf" || String.eqb w "infinity")%string
  then Some (PInf negative)
  else if String.eqb w "nan" then Some PNaN
  else None.

Definition py_float (s : string) : result pyfloat :=
  match strip (list_ascii_of_string s) with
  | [] => Raise ValueError
  | c :: l =>
      let text :=
        if existsb (Ascii.eqb "_") (c :: l)
        then drop_underscores None (c :: l)
        else Some (c :: l) in
      match text with
      | None => Raise ValueError
      | Some t =>
          let (negative, body) := split_sign t in
          match parse_inf_or_nan negative body with
          | Some x => Ok x
          | None =>
              match parse_number body with
              | Some q => Ok (PFin (if negative then - q else q))
              | None => Raise ValueError
              end
          end
      end
  end.

(** [df['Omset'].str.replace(',', '').astype(float)], one entry (a revenue
    text) and the whole column: the conversion of the column fails when that
    of an entry does. *)
Definition load_omset (text : string) : result pyfloat :=
  py_float (str_replace "," "" text).

Fixpoint load_data (omset_column : list string) : result (list pyfloat) :=
  match omset_column with
  | [] => Ok []
  | text :: rest =>
      x <- load_omset text ;;
      xs <- load_data rest ;;
      Ok (x :: xs)
  end.

(** ** Reference notions used in the statements *)

(** The main loop as a map with error propagation. *)
Fixpoint mapM {A B : Type} (f : A -> result B) (l : list A) : result (list B) :=
  match l with
  | [] => Ok []
  | a :: l' =>
      b <- f a ;;
      bs <- mapM f l' ;;
      Ok (b :: bs)
  end.

(** The existing label of a result record agrees with its calculated
    cluster. *)
Definition labels_agree (r : ResultRow) : Prop :=
  Existing_Cluster r = Some (Calculated_Cluster r).

(** Position of the first occurrence of [x] in [l] (the length of [l] when
    there is none). *)
Fixpoint first_index (x : string) (l : list string) : nat :=
  match l with
  | [] => 0%nat
  | y :: l' => if String.eqb y x then 0%nat else S (first_index x l')
  end.

(** [x] ranks before [y] among the product names [names]: it is more
    frequent, or as frequent and first met earlier. *)
Definition ranks_before (names : list string) (x y : string) : Prop :=
  (count_occ string_dec names y < count_occ string_dec names x)%nat \/
  (count_occ string_dec names x = count_occ string_dec names y /\
   (first_index x names < first_index y names)%nat).

(** The order a stable sort by descending count produces from counter
    entries laid out by [pos]: the greater count first and, at equal counts,
    the smaller [pos] first. *)
Definition item_before (pos : string -> nat) (a b : string * nat) : Prop :=
  (snd b < snd a)%nat \/ (snd a = snd b /\ (pos (fst a) < pos (fst b))%nat).

(** The product names of the records of cluster [c], in table order. *)
Definition cluster_products (results_df : list ResultRow) (c : nat)
  : list string :=
  map nama_Produk
    (filter (fun r => (Calculated_Cluster r =? c)%nat) results_df).

(** A plain decimal number as text: an optional sign, digits, and an
    optional point followed by digits, with at least one digit in all. *)
Definition decimal_text (s : string) : Prop :=
  exists sign int_part frac : list ascii,
    list_ascii_of_string s = sign ++ int_part ++ frac /\
    (sign = [] \/ sign = ["+"%char] \/ sign = ["-"%char]) /\
    forallb is_digit int_part = true /\
    ((frac = [] /\ int_part <> []) \/
     exists frac_digits,
       frac = "."%char :: frac_digits /\
       forallb is_digit frac_digits = true /\
       int_part ++ frac_digits <> []).

(** The characters of a plain decimal number, and those it can start with
    after the sign. *)
Definition decimal_char (c : ascii) : bool :=
  is_digit c || Ascii.eqb c "." || Ascii.eqb c "+" || Ascii.eqb c "-".

Definition number_start (c : ascii) : bool := is_digit c || Ascii.eqb c ".".

(** ** An example result table

    Six records: four in cluster 1 (products kopi, teh, teh, kopi), two in
    cluster 2, none in cluster 3. *)
Definition example_results : list ResultRow :=
  [ Build_ResultRow (PInt 1) (PStr "Toko A") "kopi" 100000 1 (Some 1%nat) [];
    Build_ResultRow (PInt 2) (PStr "Toko B") "teh" 300000 1 (Some 2%nat) [];
    Build_ResultRow (PInt 3) (PStr "Toko C") "gula" 900000 2 (Some 2%nat) [];
    Build_ResultRow (PInt 4) (PStr "Toko D") "teh" 200000 1 None [];
    Build_ResultRow (PInt 5) (PStr "Toko E") "kopi" 400000 1 (Some 1%nat) [];
    Build_ResultRow (PInt 6) (PStr "Toko F") "beras" 800000 2 (Some 3%nat) [] ].

(** ** The other sheets of the report *)

(** One item of the column comparison
    [results_df['Calculated Cluster'] != results_df['Existing Cluster']]:
    a missing label differs from every cluster id. *)
Definition cluster_ne (calculated : nat) (existing : option nat) : bool :=
  match existing with
  | Some e => negb (calculated =? e)%nat
  | None => true
  end.

(** The rows of the Mismatches sheet,
    [results_df[results_df['Calculated Cluster'] != results_df['Existing Cluster']]]. *)
Definition mismatches (results_df : list ResultRow) : list ResultRow :=
  filter (fun r => cluster_ne (Calculated_Cluster r) (Existing_Cluster r))
    results_df.

(** [enumerate(iterable, start)] *)
Fixpoint enumerate {A : Type} (start : nat) (l : list A) : list (nat * A) :=
  match l with
  | [] => []
  | a :: l' => (start, a) :: enumerate (S start) l'
  end.

(** An integer inside an f-string: its decimal numeral. *)
Definition py_str_nat (n : nat) : string :=
  DecimalString.NilEmpty.string_of_uint (Nat.to_uint n).

(** The data rows of the Centroids sheet,
    [for i, centroid in enumerate(centroids, 1)]: the row number, the label
    [f'Cluster {i}'] of column A and the value of column B. *)
Definition centroid_sheet (cs : list Q) : list (nat * string * Q) :=
  map (fun ic => (fst ic, ("Cluster " ++ py_str_nat (fst ic))%string, snd ic))
    (enumerate 1 cs).

(** ** Further reference notions *)

(** The record built from a row: the columns copied, the distances to the
    centroids of [main], the cluster they give and the label of the flags. *)
Definition record_of_row (row : SalesRow) (r : ResultRow) : Prop :=
  Data_id r = row_Data_id row /\
  Nama_Toko r = row_Nama_Toko row /\
  nama_Produk r = row_nama_Produk row /\
  Omset r = row_Omset row /\
  Distances r = calculate_distances (row_Omset row) centroids /\
  assign_cluster (Distances r) = Ok (Calculated_Cluster r) /\
  (1 <= Calculated_Cluster r <= 3)%nat /\
  Existing_Cluster r = existing_cluster row.

(** A table whose calculated clusters are all 1, 2 or 3. *)
Definition clusters_in_range (results_df : list ResultRow) : Prop :=
  Forall (fun r => (1 <= Calculated_Cluster r <= 3)%nat) results_df.

(** The number of records without an existing label. *)
Definition unlabelled_count (results_df : list ResultRow) : nat :=
  length
    (filter (fun r => match Existing_Cluster r with None => true | Some _ => false end)
       results_df).

(** ** An example loaded table *)
Definition example_df : list SalesRow :=
  [ Build_SalesRow (PInt 1) (PStr "Toko A") "kopi" 500000
      (PStr "1") (PStr "0") (PStr "0");
    Build_SalesRow (PInt 2) (PStr "Toko B") "teh" 915000
      (PStr "0") (PStr "0") (PStr "0");
    Build_SalesRow (PInt 3) (PStr "Toko C") "gula" 700000000
      (PStr "0") (PStr "1") (PStr "0") ].

(** ** The workbook *)

(** A cell as it is written: a text or a number. *)
Inductive cell : Type :=
| CText (s : string)
| CNumber (q : Q).

(** [worksheet.write(row, col, value, format)] of a float.  The workbook is
    opened by [pd.ExcelWriter(excel_filename, engine='xlsxwriter')] with no
    option, and xlsxwriter then refuses NaN and the infinities with
    [TypeError] (they are written only under its [nan_inf_to_errors]
    option). *)
Definition write_float (x : pyfloat) : result cell :=
  match x with
  | PFin q => Ok (CNumber q)
  | PInf _ => Raise TypeError
  | PNaN => Raise TypeError
  end.

(** The body of the loop [for cluster in [1, 2, 3]] that writes the cluster
    characteristics: the six cells of one cluster with their rows and
    columns, in the order written.  [cluster_analysis[cluster]] raises
    [KeyError] for an id without a profile. *)
Definition write_cluster_info (row_offset : nat)
  (cluster_analysis : list (nat * ClusterProfile)) (cluster : nat)
  : result (list (nat * nat * cell)) :=
  match dict_get cluster_analysis cluster with
  | None => Raise KeyError
  | Some cluster_info =>
      let base_row := (row_offset + (cluster - 1) * 4 + 1)%nat in
      average <- write_float (avg_omset cluster_info) ;;
      Ok [ (base_row, 0%nat, CText ("Cluster " ++ py_str_nat cluster));
           (base_row, 1%nat, CText (characteristics cluster_info));
           ((base_row + 1)%nat, 0%nat, CText "Average Omset");
           ((base_row + 1)%nat, 1%nat, average);
           ((base_row + 2)%nat, 0%nat, CText "Dominant Products");
           ((base_row + 2)%nat, 1%nat,
            CText (String.concat ", " (dominant_products cluster_info))) ]
  end.

Fixpoint write_clusters (row_offset : nat)
  (cluster_analysis : list (nat * ClusterProfile)) (clusters : list nat)
  : result (list (nat * nat * cell)) :=
  match clusters with
  | [] => Ok []
  | cluster :: rest =>
      cells <- write_cluster_info row_offset cluster_analysis cluster ;;
      more <- write_clusters row_offset cluster_analysis rest ;;
      Ok (cells ++ more)
  end.

Record Workbook : Type := {
  Summary_Statistics : Summary;
  Cluster_Characteristics : list (nat * nat * cell);
  Mismatches : list ResultRow;
  Centroids : list (nat * string * Q)
}.

(** [create_excel_report], in the order of the code: the summary values,
    the cluster lines below them ([row_offset] is the number of metrics plus
    2), the Mismatches sheet and the Centroids sheet.  The Detailed Results
    sheet, the formats and the column widths are left out.  The file is
    saved by [writer.close()], the last statement: when a write raises, no
    report is produced. *)
Definition create_excel_report (results_df : list ResultRow) (cs : list Q)
  (cluster_analysis : list (nat * ClusterProfile)) : result Workbook :=
  summary <- summary_data results_df ;;
  cluster_cells <- write_clusters (9 + 2) cluster_analysis [1; 2; 3]%nat ;;
  Ok {| Summary_Statistics := summary;
        Cluster_Characteristics := cluster_cells;
        Mismatches := mismatches results_df;
        Centroids := centroid_sheet cs |}.

(** ** Distances on floats *)

(** The distance engine with the rounding of float arithmetic written out:
    Python rounds the difference [omset - centroid] to a float, [rnd] of the
    exact difference, and [abs] is exact.  With [rnd] the identity this is
    [calculate_distances]. *)
Definition calculate_distances_rounded (rnd : Q -> Q) (omset : Q)
  (centroids : list Q) : list Q :=
  map (fun centroid => Qabs (rnd (omset - centroid))) centroids.

(** What the rounding of float arithmetic (to nearest, ties to even) has
    that matters here: equal numbers round alike, rounding keeps the order,
    and it commutes with negation. *)
Definition rounding (rnd : Q -> Q) : Prop :=
  (forall x y, x == y -> rnd x == rnd y) /\
  (forall x y, x <= y -> rnd x <= rnd y) /\
  (forall x, rnd (- x) == - rnd x).

(** A coarse rounding of this kind: a whole number stays, any other number
    goes to the middle of the two whole numbers around it. *)
Definition round_to_halves (x : Q) : Q :=
  (inject_Z (Qfloor x) + inject_Z (Qceiling x)) * (1 # 2).

(** * Properties *)

(** ** Order facts on the number model *)

Lemma Qltb_lt (x y : Q) : Qltb x y = true <-> x < y.
Proof.
  unfold Qltb. rewrite negb_true_iff.
  split; intro H.
  - apply Qnot_le_lt. intro Hle.
    apply Qle_bool_iff in Hle. congruence.
  - destruct (Qle_bool y x) eqn:E; [|reflexivity].
    apply Qle_bool_iff in E. exfalso. exact (Qlt_not_le _ _ H E).
Qed.

Lemma Qltb_ge (x y : Q) : Qltb x y = false <-> y <= x.
Proof.
  unfold Qltb. rewrite negb_false_iff. apply Qle_bool_iff.
Qed.

(** ** [min] and [list.index] *)

Lemma min_step_lower_bound (xs : list Q) (x : Q) :
  fold_left min_step xs x <= x /\
  forall y, In y xs -> fold_left min_step xs x <= y.
Proof.
  revert x. induction xs as [|a xs IH]; intro x; simpl.
  - split; [apply Qle_refl | intros y []].
  - destruct (IH (min_step x a)) as [Hhd Htl].
    assert (Hs : min_step x a <= x /\ min_step x a <= a).
    { unfold min_step. destruct (Qltb a x) eqn:E.
      - apply Qltb_lt in E. split; [apply Qlt_le_weak; exact E | apply Qle_refl].
      - apply Qltb_ge in E. split; [apply Qle_refl | exact E]. }
    destruct Hs as [Hx Ha]. split.
    + eapply Qle_trans; eassumption.
    + intros y [<- | Hy].
      * eapply Qle_trans; eassumption.
      * apply Htl; exact Hy.
Qed.

Lemma min_step_member (xs : list Q) (x : Q) :
  In (fold_left min_step xs x) (x :: xs).
Proof.
  revert x. induction xs as [|a xs IH]; intro x; simpl.
  - left; reflexivity.
  - destruct (IH (min_step x a)) as [H | H].
    + unfold min_step in H at 1. destruct (Qltb a x); auto.
    + right; right; exact H.
Qed.

(** [min] of a non-empty list returns one of its items, and no item is
    smaller. *)
Lemma py_min_spec (l : list Q) :
  l <> [] ->
  exists m, py_min l = Ok m /\ In m l /\ forall y, In y l -> m <= y.
Proof.
  destruct l as [|x xs]; [congruence | intros _].
  exists (fold_left min_step xs x). split; [reflexivity | split].
  - apply min_step_member.
  - destruct (min_step_lower_bound xs x) as [Hx Hxs].
    intros y [<- | Hy]; auto.
Qed.

(** [list.index] finds the first position holding a value equal to [x],
    whenever there is one. *)
Lemma py_index_spec (x : Q) (l : list Q) :
  (exists y, In y l /\ y == x) ->
  exists i, py_index x l = Ok i /\ (i < length l)%nat /\
            nth i l 0 == x /\
            forall j, (j < i)%nat -> ~ nth j l 0 == x.
Proof.
  induction l as [|a l IH]; intros (y & Hin & Hy).
  - destruct Hin.
  - simpl. destruct (Qeq_bool a x) eqn:E.
    + exists 0%nat. repeat split.
      * simpl; lia.
      * apply Qeq_bool_iff; exact E.
      * intros j Hj; lia.
    + assert (Hl : exists y, In y l /\ y == x).
      { destruct Hin as [-> | Hin].
        - apply Qeq_bool_neq in E. contradiction.
        - exists y; auto. }
      destruct (IH Hl) as (i & Hi & Hlen & Hnth & Hfirst).
      exists (S i). rewrite Hi. simpl. repeat split; [lia | exact Hnth |].
      intros [|j] Hj; simpl.
      * apply Qeq_bool_neq; exact E.
      * apply Hfirst; lia.
Qed.

Lemma py_index_absent (x : Q) (l : list Q) :
  (forall y, In y l -> ~ y == x) -> py_index x l = Raise ValueError.
Proof.
  induction l as [|a l IH]; intro H; simpl; [reflexivity|].
  destruct (Qeq_bool a x) eqn:E.
  - apply Qeq_bool_iff in E. exfalso. apply (H a); [left; reflexivity | exact E].
  - rewrite IH; [reflexivity|]. intros y Hy. apply H. right; exact Hy.
Qed.

Lemma first_minimum_unique (l : list Q) (i j : nat) :
  first_minimum l i -> first_minimum l j -> i = j.
Proof.
  intros (Hi & Hmin_i & Hfst_i) (Hj & Hmin_j & Hfst_j).
  destruct (Nat.lt_trichotomy i j) as [H | [H | H]]; [exfalso | exact H | exfalso].
  - apply (Qlt_not_le _ _ (Hfst_j i H)). apply Hmin_i; exact Hj.
  - apply (Qlt_not_le _ _ (Hfst_i j H)). apply Hmin_j; exact Hi.
Qed.

Lemma assign_cluster_first_minimum (distances : list Q) :
  distances <> [] ->
  exists i, assign_cluster distances = Ok (i + 1)%nat /\ first_minimum distances i.
Proof.
  intro Hne. unfold assign_cluster.
  destruct (py_min_spec distances Hne) as (m & -> & Hin & Hmin). simpl.
  destruct (py_index_spec m distances) as (i & -> & Hlen & Hnth & Hfirst).
  { exists m. split; [exact Hin | apply Qeq_refl]. }
  simpl. exists i. split; [reflexivity|]. split; [exact Hlen|]. split.
  - intros j Hj. rewrite Hnth. apply Hmin. apply nth_In; exact Hj.
  - intros j Hj.
    assert (Hjl : (j < length distances)%nat) by lia.
    specialize (Hmin (nth j distances 0) (nth_In _ _ Hjl)).
    apply Qle_lteq in Hmin. destruct Hmin as [Hlt | Heq].
    + rewrite Hnth; exact Hlt.
    + exfalso. apply (Hfirst j Hj). symmetry; exact Heq.
Qed.

Lemma assign_cluster_ok_unique (distances : list Q) (i : nat) :
  first_minimum distances i -> assign_cluster distances = Ok (i + 1)%nat.
Proof.
  intro Hi.
  assert (Hne : distances <> []).
  { destruct Hi as (Hlen & _). destruct distances; [simpl in Hlen; lia | discriminate]. }
  destruct (assign_cluster_first_minimum distances Hne) as (k & Hk & Hmin).
  rewrite (first_minimum_unique distances i k Hi Hmin). exact Hk.
Qed.

Lemma Qabs_zero_inv (x : Q) : Qabs x == 0 -> x == 0.
Proof.
  intro H.
  assert (Hle : Qabs x <= 0) by (rewrite H; apply Qle_refl).
  apply Qabs_Qle_condition in Hle. destruct Hle as [Hlo Hhi].
  apply Qle_antisym; [exact Hhi | exact Hlo].
Qed.

Lemma distance_to_itself (c : Q) : Qabs (c - c) == 0.
Proof.
  assert (H : c - c == 0) by ring.
  rewrite H. reflexivity.
Qed.

Lemma distance_positive (v c : Q) : ~ c == v -> 0 < Qabs (v - c).
Proof.
  intro Hne.
  destruct (Qle_lt_or_eq _ _ (Qabs_nonneg (v - c))) as [Hlt | Heq]; [exact Hlt|].
  exfalso. apply Hne.
  symmetry in Heq. apply Qabs_zero_inv in Heq.
  assert (H : c == v - (v - c)) by ring.
  rewrite H, Heq. ring.
Qed.

(** C1: for every non-empty list of distances, [assign_cluster] returns
    [i + 1] where [i] is the position of the smallest distance: no distance
    is smaller than the one at [i], and every distance before [i] is strictly
    larger, so among equal minima the lowest position wins.  Hence for every
    revenue [v] and centroid triple the result is the 1-based position of
    the nearest centroid, lowest position on ties; a revenue equal to
    centroid 2 (and different from centroid 1) is at distance 0 from it and
    is assigned cluster 2, as is revenue 915000 under the centroids of
    [main]. *)
Theorem assign_cluster_first_argmin :
  (forall distances : list Q,
      distances <> [] ->
      exists i,
        assign_cluster distances = Ok (i + 1)%nat /\
        (i < length distances)%nat /\
        (forall j, (j < length distances)%nat ->
                   nth i distances 0 <= nth j distances 0) /\
        (forall j, (j < i)%nat -> nth i distances 0 < nth j distances 0)) /\
  (forall v c1 c2 c3 : Q,
      exists i,
        assign_cluster (calculate_distances v [c1; c2; c3]) = Ok (i + 1)%nat /\
        (i < 3)%nat /\
        (forall j, (j < 3)%nat ->
                   Qabs (v - nth i [c1; c2; c3] 0)
                   <= Qabs (v - nth j [c1; c2; c3] 0)) /\
        (forall j, (j < i)%nat ->
                   Qabs (v - nth i [c1; c2; c3] 0)
                   < Qabs (v - nth j [c1; c2; c3] 0))) /\
  (forall c1 c2 c3 : Q,
      ~ c1 == c2 ->
      nth 1 (calculate_distances c2 [c1; c2; c3]) 0 == 0 /\
      assign_cluster (calculate_distances c2 [c1; c2; c3]) = Ok 2%nat) /\
  (nth 1 (calculate_distances 915000 centroids) 0 == 0 /\
   assign_cluster (calculate_distances 915000 centroids) = Ok 2%nat).
Proof.
  split; [|split; [|split]].
  - intros distances Hne.
    destruct (assign_cluster_first_minimum distances Hne) as (i & Hi & Hmin).
    exists i. split; [exact Hi | exact Hmin].
  - intros v c1 c2 c3.
    destruct (assign_cluster_first_minimum (calculate_distances v [c1; c2; c3]))
      as (i & Hi & Hlen & Hmin & Hfirst); [discriminate|].
    exists i. simpl in Hlen. split; [exact Hi|]. split; [exact Hlen|]. split.
    + intros j Hj. specialize (Hmin j Hj).
      destruct i as [|[|[|i]]]; [| | |lia];
        destruct j as [|[|[|j]]]; try lia; exact Hmin.
    + intros j Hj. specialize (Hfirst j Hj).
      destruct i as [|[|[|i]]]; [| | |lia];
        destruct j as [|[|[|j]]]; try lia; exact Hfirst.
  - intros c1 c2 c3 Hne. unfold calculate_distances. cbn [map nth].
    split; [apply distance_to_itself|].
    apply (assign_cluster_ok_unique _ 1%nat). repeat split.
    + cbn [length]; lia.
    + intros j _. cbn [nth]. rewrite distance_to_itself.
      destruct j as [|[|[|j]]]; cbn [nth]; try apply Qabs_nonneg.
      destruct j; apply Qle_refl.
    + intros j Hj. assert (j = 0%nat) by lia. subst j.
      cbn [nth]. rewrite distance_to_itself. apply distance_positive. exact Hne.
  - split; reflexivity.
Qed.

Lemma assign_cluster_first_argmin_witness :
  exists i,
    assign_cluster [3; 1; 1] = Ok (i + 1)%nat /\
    (i < length [3; 1; 1])%nat /\
    (forall j, (j < length [3; 1; 1])%nat ->
               nth i [3; 1; 1] 0 <= nth j [3; 1; 1] 0) /\
    (forall j, (j < i)%nat -> nth i [3; 1; 1] 0 < nth j [3; 1; 1] 0).
Proof.
  apply (proj1 assign_cluster_first_argmin [3; 1; 1]). discriminate.
Defined.

(** C8: [assign_cluster] on the empty distance list raises [ValueError],
    Python's invalid-argument error, and it raises on no other list. *)
Theorem assign_cluster_empty_raises :
  assign_cluster [] = Raise ValueError /\
  (forall distances e, assign_cluster distances = Raise e -> distances = []).
Proof.
  split; [reflexivity|].
  intros distances e He. destruct distances as [|x xs]; [reflexivity|].
  destruct (assign_cluster_first_minimum (x :: xs)) as (i & Hi & _);
    [discriminate|].
  rewrite Hi in He. discriminate.
Qed.

(** ** Distance engine *)

Lemma calculate_distances_nth (omset : Q) (cs : list Q) (i : nat) :
  (i < length cs)%nat ->
  nth i (calculate_distances omset cs) 0 = Qabs (omset - nth i cs 0).
Proof.
  revert i. induction cs as [|c cs IH]; intros i Hi; simpl in Hi; [lia|].
  destruct i as [|i]; simpl; [reflexivity|].
  apply IH. lia.
Qed.

(** The third distance of the scenario of C9 as the claim states it, a value
    that starts 689154580.85, is not what the code computes: the distance
    from 500000 to 689155580.85 is 688655580.85. *)
Lemma calculate_distances_scenario_as_stated_fails :
  ~ exists d3 : Q,
      689154580.85 <= d3 /\ d3 < 689154580.86 /\
      Forall2 Qeq (calculate_distances 500000 [424000; 915000; 689155580.85])
        [76000; 415000; d3].
Proof.
  intros (d3 & Hlo & _ & H).
  inversion H as [|? ? ? ? _ H1]; subst.
  inversion H1 as [|? ? ? ? _ H2]; subst.
  inversion H2 as [|? ? ? ? H3 _]; subst.
  rewrite <- H3 in Hlo. revert Hlo. apply Qlt_not_le. reflexivity.
Qed.

(** C9 (amended): for every revenue and centroid list, [calculate_distances]
    returns a list of the same length whose element [i] is
    [abs(revenue - centroid[i])]; it is a function of its arguments only.
    Revenue 500000 against the centroids [424000, 915000, 689155580.85]
    gives the distances [76000, 415000, 688655580.85] and cluster 1. *)
Theorem calculate_distances_spec :
  (forall (omset : Q) (cs : list Q),
      length (calculate_distances omset cs) = length cs /\
      forall i, (i < length cs)%nat ->
                nth i (calculate_distances omset cs) 0
                == Qabs (omset - nth i cs 0)) /\
  Forall2 Qeq (calculate_distances 500000 [424000; 915000; 689155580.85])
    [76000; 415000; 688655580.85] /\
  assign_cluster (calculate_distances 500000 [424000; 915000; 689155580.85])
  = Ok 1%nat.
Proof.
  split; [|split].
  - intros omset cs. split.
    + unfold calculate_distances. apply length_map.
    + intros i Hi. rewrite (calculate_distances_nth omset cs i Hi).
      apply Qeq_refl.
  - repeat constructor.
  - reflexivity.
Qed.

(** ** Existing-label extractor *)

Lemma py_eq_str_iff (v : pyval) (s : string) :
  py_eq_str v s = true <-> v = PStr s.
Proof.
  destruct v as [t| | | |]; simpl; try (split; [discriminate | discriminate]).
  rewrite String.eqb_eq. split; [intros ->; reflexivity | intro H; injection H; auto].
Qed.

Lemma py_eq_str_false (v : pyval) (s : string) :
  py_eq_str v s = false <-> v <> PStr s.
Proof.
  rewrite <- py_eq_str_iff. destruct (py_eq_str v s); split; congruence.
Qed.

Lemma existing_cluster_none_iff (row : SalesRow) :
  Kluster_1 row <> PStr "1" /\ Kluster_2 row <> PStr "1" /\
  Kluster_3 row <> PStr "1" <->
  existing_cluster row = None.
Proof.
  unfold existing_cluster. rewrite <- !py_eq_str_false.
  destruct (py_eq_str (Kluster_1 row) "1"), (py_eq_str (Kluster_2 row) "1"),
    (py_eq_str (Kluster_3 row) "1"); intuition discriminate.
Qed.

(** C2: the existing label is 1, 2 or 3 for the first of flag1, flag2,
    flag3 (in that order) that is the string "1", and none when no flag is
    that string.  The test is on text: an integer 1, a float 1.0, a boolean
    true, or a string with another spelling of one is not a match. *)
Theorem existing_cluster_first_flag :
  (forall row : SalesRow,
      (existing_cluster row = Some 1%nat <-> Kluster_1 row = PStr "1") /\
      (existing_cluster row = Some 2%nat <->
       Kluster_1 row <> PStr "1" /\ Kluster_2 row = PStr "1") /\
      (existing_cluster row = Some 3%nat <->
       Kluster_1 row <> PStr "1" /\ Kluster_2 row <> PStr "1" /\
       Kluster_3 row = PStr "1") /\
      (existing_cluster row = None <->
       Kluster_1 row <> PStr "1" /\ Kluster_2 row <> PStr "1" /\
       Kluster_3 row <> PStr "1") /\
      In (existing_cluster row) [Some 1%nat; Some 2%nat; Some 3%nat; None]) /\
  (forall id toko produk omset,
      existing_cluster
        (Build_SalesRow id toko produk omset (PInt 1) (PFloat 1) (PBool true))
      = None /\
      existing_cluster
        (Build_SalesRow id toko produk omset (PStr "1.0") (PStr " 1") (PStr "true"))
      = None /\
      existing_cluster
        (Build_SalesRow id toko produk omset (PStr "1") (PStr "1") (PStr "1"))
      = Some 1%nat /\
      existing_cluster
        (Build_SalesRow id toko produk omset (PInt 1) (PStr "1") (PStr "1"))
      = Some 2%nat).
Proof.
  split.
  - intro row. unfold existing_cluster.
    destruct (py_eq_str (Kluster_1 row) "1") eqn:E1;
      [apply py_eq_str_iff in E1 | apply py_eq_str_false in E1];
      (destruct (py_eq_str (Kluster_2 row) "1") eqn:E2;
       [apply py_eq_str_iff in E2 | apply py_eq_str_false in E2]);
      (destruct (py_eq_str (Kluster_3 row) "1") eqn:E3;
       [apply py_eq_str_iff in E3 | apply py_eq_str_false in E3]);
      repeat split; intros; simpl;
        try discriminate; try tauto; try (intuition congruence).
  - intros id toko produk omset. repeat split.
Qed.

(** ** The main loop *)

Lemma main_loop_mapM (cs : list Q) (df : list SalesRow) (acc : list ResultRow) :
  main_loop cs df acc = (rs <- mapM (process_row cs) df ;; Ok (acc ++ rs)).
Proof.
  revert acc. induction df as [|row df IH]; intro acc; simpl.
  - rewrite app_nil_r. reflexivity.
  - destruct (process_row cs row) as [r|e]; simpl; [|reflexivity].
    rewrite IH. destruct (mapM (process_row cs) df) as [rs|e]; simpl; [|reflexivity].
    rewrite <- app_assoc. reflexivity.
Qed.

Lemma mapM_app {A B : Type} (f : A -> result B) (l1 l2 : list A) :
  mapM f (l1 ++ l2) =
  (r1 <- mapM f l1 ;; r2 <- mapM f l2 ;; Ok (r1 ++ r2)).
Proof.
  induction l1 as [|a l1 IH]; simpl.
  - destruct (mapM f l2); reflexivity.
  - destruct (f a) as [b|e]; simpl; [|reflexivity].
    rewrite IH. destruct (mapM f l1) as [r1|e]; simpl; [|reflexivity].
    destruct (mapM f l2); reflexivity.
Qed.

(** With the three centroids of [main] the loop body never raises, and the
    record it builds carries the label computed from the flags. *)
Lemma process_row_centroids (row : SalesRow) :
  exists r, process_row centroids row = Ok r /\
            Existing_Cluster r = existing_cluster row /\
            Omset r = row_Omset row /\
            nama_Produk r = row_nama_Produk row /\
            (1 <= Calculated_Cluster r <= 3)%nat.
Proof.
  unfold process_row.
  destruct (assign_cluster_first_minimum
              (calculate_distances (row_Omset row) centroids))
    as (i & Hi & Hlen & _); [discriminate|].
  rewrite Hi. simpl. eexists. split; [reflexivity|]. simpl in *.
  repeat split; lia.
Qed.

Lemma main_results_total (df : list SalesRow) :
  exists rs, mapM (process_row centroids) df = Ok rs /\ length rs = length df.
Proof.
  induction df as [|row df (rs & Hrs & Hlen)]; simpl.
  - exists []. split; reflexivity.
  - destruct (process_row_centroids row) as (r & Hr & _).
    rewrite Hr, Hrs. simpl. exists (r :: rs). split; [reflexivity | simpl; lia].
Qed.

(** ** Summary figures *)

Lemma cluster_eq_iff (r : ResultRow) :
  cluster_eq (Calculated_Cluster r) (Existing_Cluster r) = true <->
  labels_agree r.
Proof.
  unfold cluster_eq, labels_agree.
  destruct (Existing_Cluster r) as [e|].
  - rewrite Nat.eqb_eq. split; [intros ->; reflexivity | intro H; injection H; auto].
  - split; discriminate.
Qed.

(** A table is, up to order, the rows a test keeps followed by the rows it
    rejects. *)
Lemma filter_split_perm {T : Type} (keep : T -> bool) (rows : list T) :
  Permutation rows
    (filter keep rows ++ filter (fun r => negb (keep r)) rows).
Proof.
  induction rows as [|r rows IH]; simpl; [constructor|].
  destruct (keep r); simpl.
  - constructor; exact IH.
  - apply Permutation_cons_app; exact IH.
Qed.

Lemma filter_Forall {A : Type} (f : A -> bool) (l : list A) :
  Forall (fun a => f a = true) (filter f l).
Proof.
  apply Forall_forall. intros a Ha. apply filter_In in Ha. tauto.
Qed.

Lemma matching_clusters_app (rs1 rs2 : list ResultRow) :
  matching_clusters (rs1 ++ rs2)
  = (matching_clusters rs1 + matching_clusters rs2)%nat.
Proof.
  unfold matching_clusters. rewrite filter_app, length_app. reflexivity.
Qed.

Lemma matching_clusters_unlabelled (r : ResultRow) (rs : list ResultRow) :
  Existing_Cluster r = None ->
  matching_clusters (r :: rs) = matching_clusters rs.
Proof.
  intro H. unfold matching_clusters. simpl. rewrite H. reflexivity.
Qed.

Lemma inject_nat_nonzero (n : nat) : n <> 0%nat -> ~ inject_Z (Z.of_nat n) == 0.
Proof.
  intros Hn H. unfold Qeq in H. simpl in H. lia.
Qed.

Lemma summary_data_nonempty (results_df : list ResultRow) :
  results_df <> [] ->
  summary_data results_df =
  Ok {| Total_Records := length results_df;
        Matching_Clusters := matching_clusters results_df;
        Match_Percentage :=
          inject_Z (Z.of_nat (matching_clusters results_df))
          / inject_Z (Z.of_nat (length results_df)) * 100;
        Count_Calculated := map (calc_count results_df) [1; 2; 3]%nat;
        Count_Existing := map (exist_count results_df) [1; 2; 3]%nat |}.
Proof.
  intro Hne. unfold summary_data, py_truediv.
  destruct results_df as [|r rs]; [congruence | reflexivity].
Qed.

(** C6: for a non-empty result table the summary holds the number of
    records, the number of those whose existing label equals the calculated
    cluster, and as match percentage 100 times the second over the first.
    For an empty table no percentage is computed: the division raises
    [ZeroDivisionError] (and this is the only way the summary fails). *)
Theorem match_percentage_spec :
  (forall results_df : list ResultRow,
      results_df <> [] ->
      exists s matched unmatched,
        summary_data results_df = Ok s /\
        Permutation results_df (matched ++ unmatched) /\
        Forall labels_agree matched /\
        Forall (fun r => ~ labels_agree r) unmatched /\
        Total_Records s = length results_df /\
        Matching_Clusters s = length matched /\
        Match_Percentage s
        == 100 * inject_Z (Z.of_nat (length matched))
           / inject_Z (Z.of_nat (length results_df))) /\
  summary_data [] = Raise ZeroDivisionError /\
  (forall results_df e, summary_data results_df = Raise e -> results_df = []).
Proof.
  split; [|split].
  - intros results_df Hne.
    rewrite (summary_data_nonempty results_df Hne).
    set (f := fun r => cluster_eq (Calculated_Cluster r) (Existing_Cluster r)).
    eexists. exists (filter f results_df).
    exists (filter (fun r => negb (f r)) results_df).
    split; [reflexivity|]. split; [apply filter_split_perm|]. split; [|split].
    + eapply Forall_impl; [|apply filter_Forall].
      intros r Hr. apply cluster_eq_iff. exact Hr.
    + eapply Forall_impl; [|apply filter_Forall].
      intros r Hr Hagree. apply cluster_eq_iff in Hagree.
      unfold f in Hr. rewrite Hagree in Hr. discriminate.
    + simpl. split; [reflexivity|]. split; [reflexivity|].
      unfold matching_clusters. fold f.
      assert (Hn : ~ inject_Z (Z.of_nat (length results_df)) == 0).
      { apply inject_nat_nonzero. destruct results_df; [congruence | discriminate]. }
      field. exact Hn.
  - reflexivity.
  - intros results_df e He. destruct results_df as [|r rs]; [reflexivity|].
    rewrite summary_data_nonempty in He; discriminate.
Qed.

Lemma match_percentage_spec_witness :
  exists s matched unmatched,
    summary_data
      [ Build_ResultRow (PStr "a") (PStr "t") "p" 500000 1 (Some 1%nat) [];
        Build_ResultRow (PStr "b") (PStr "u") "q" 900000 2 None [] ] = Ok s /\
    Permutation
      [ Build_ResultRow (PStr "a") (PStr "t") "p" 500000 1 (Some 1%nat) [];
        Build_ResultRow (PStr "b") (PStr "u") "q" 900000 2 None [] ]
      (matched ++ unmatched) /\
    Forall labels_agree matched /\
    Forall (fun r => ~ labels_agree r) unmatched /\
    Total_Records s = 2%nat /\
    Matching_Clusters s = length matched /\
    Match_Percentage s
    == 100 * inject_Z (Z.of_nat (length matched)) / inject_Z (Z.of_nat 2).
Proof.
  apply (proj1 match_percentage_spec
           [ Build_ResultRow (PStr "a") (PStr "t") "p" 500000 1 (Some 1%nat) [];
             Build_ResultRow (PStr "b") (PStr "u") "q" 900000 2 None [] ]).
  discriminate.
Defined.

(** C7: a record none of whose flags is the string "1" gets no existing
    label.  In the run over the whole table it is one of the result records,
    so it counts in the total, and the matching count is what it would be
    without it, whatever cluster was calculated for it. *)
Theorem unlabelled_record_counted_not_matched :
  (forall row : SalesRow,
      Kluster_1 row <> PStr "1" -> Kluster_2 row <> PStr "1" ->
      Kluster_3 row <> PStr "1" ->
      existing_cluster row = None /\
      forall before after : list SalesRow,
      exists rs1 r rs2 s,
        main_results (before ++ row :: after) = Ok (rs1 ++ r :: rs2) /\
        main_results (before ++ after) = Ok (rs1 ++ rs2) /\
        length rs1 = length before /\ length rs2 = length after /\
        Existing_Cluster r = None /\
        summary_data (rs1 ++ r :: rs2) = Ok s /\
        Total_Records s = S (length (rs1 ++ rs2)) /\
        Matching_Clusters s = matching_clusters (rs1 ++ rs2)) /\
  (forall (r : ResultRow) (rs1 rs2 : list ResultRow),
      Existing_Cluster r = None ->
      exists s,
        summary_data (rs1 ++ r :: rs2) = Ok s /\
        Total_Records s = S (length (rs1 ++ rs2)) /\
        Matching_Clusters s = matching_clusters (rs1 ++ rs2)).
Proof.
  assert (General :
    forall (r : ResultRow) (rs1 rs2 : list ResultRow),
      Existing_Cluster r = None ->
      exists s,
        summary_data (rs1 ++ r :: rs2) = Ok s /\
        Total_Records s = S (length (rs1 ++ rs2)) /\
        Matching_Clusters s = matching_clusters (rs1 ++ rs2)).
  { intros r rs1 rs2 Hr.
    rewrite summary_data_nonempty by (destruct rs1; discriminate).
    eexists. split; [reflexivity|]. simpl. split.
    - rewrite !length_app. simpl. lia.
    - rewrite !matching_clusters_app, matching_clusters_unlabelled by exact Hr.
      reflexivity. }
  split; [|exact General].
  intros row H1 H2 H3.
  assert (Hnone : existing_cluster row = None).
  { apply existing_cluster_none_iff. tauto. }
  split; [exact Hnone|].
  intros before after. unfold main_results.
  rewrite !main_loop_mapM, !mapM_app. simpl.
  destruct (main_results_total before) as (rs1 & -> & Hl1).
  destruct (main_results_total after) as (rs2 & -> & Hl2).
  destruct (process_row_centroids row) as (r & -> & Hex & _).
  simpl. rewrite Hnone in Hex.
  destruct (General r rs1 rs2 Hex) as (s & Hs & Ht & Hm).
  exists rs1, r, rs2, s. repeat split; assumption.
Qed.

(** ** Cluster analyzer *)

Lemma analyze_cluster_characteristics_unfold (results_df : list ResultRow) :
  analyze_cluster_characteristics results_df =
  [ (1%nat, cluster_profile results_df 1);
    (2%nat, cluster_profile results_df 2);
    (3%nat, cluster_profile results_df 3) ].
Proof. reflexivity. Qed.

Lemma dict_get_analysis (results_df : list ResultRow) (c : nat) :
  In c [1; 2; 3]%nat ->
  dict_get (analyze_cluster_characteristics results_df) c
  = Some (cluster_profile results_df c).
Proof.
  rewrite analyze_cluster_characteristics_unfold.
  intros [<- | [<- | [<- | []]]]; reflexivity.
Qed.

(** Selecting rows commutes with reordering the table. *)
Lemma filter_perm {T : Type} (keep : T -> bool) (rows rows' : list T) :
  Permutation rows rows' ->
  Permutation (filter keep rows) (filter keep rows').
Proof.
  induction 1 as [|x l l' _ IH|x y l|l l' l'' _ IH1 _ IH2]; simpl.
  - constructor.
  - destruct (keep x); [constructor|]; exact IH.
  - destruct (keep x), (keep y); try apply Permutation_refl. apply perm_swap.
  - eapply Permutation_trans; eassumption.
Qed.

Lemma filter_all {A : Type} (f : A -> bool) (l : list A) :
  Forall (fun a => f a = true) l -> filter f l = l.
Proof.
  induction 1 as [|a l Ha _ IH]; simpl; [reflexivity|].
  rewrite Ha, IH. reflexivity.
Qed.

Lemma filter_none {A : Type} (f : A -> bool) (l : list A) :
  Forall (fun a => f a = false) l -> filter f l = [].
Proof.
  induction 1 as [|a l Ha _ IH]; simpl; [reflexivity|].
  rewrite Ha. exact IH.
Qed.

(** The records the analyzer selects for cluster [c] are, up to order, any
    list that holds exactly the records with that calculated cluster. *)
Lemma cluster_selection (results_df members others : list ResultRow) (c : nat) :
  Permutation results_df (members ++ others) ->
  Forall (fun r => Calculated_Cluster r = c) members ->
  Forall (fun r => Calculated_Cluster r <> c) others ->
  Permutation
    (filter (fun r => (Calculated_Cluster r =? c)%nat) results_df) members.
Proof.
  intros Hperm Hin Hout.
  eapply Permutation_trans; [apply filter_perm; exact Hperm|].
  rewrite filter_app, filter_all, filter_none, app_nil_r.
  - apply Permutation_refl.
  - eapply Forall_impl; [|exact Hout]. intros r Hr. apply Nat.eqb_neq; exact Hr.
  - eapply Forall_impl; [|exact Hin]. intros r Hr. apply Nat.eqb_eq; exact Hr.
Qed.

Lemma fold_left_Qplus (l : list Q) (a : Q) :
  fold_left Qplus l a == a + fold_left Qplus l 0.
Proof.
  revert a. induction l as [|x l IH]; intro a; simpl.
  - ring.
  - rewrite (IH (a + x)), (IH (0 + x)). ring.
Qed.

Lemma Qsum_cons (x : Q) (l : list Q) : Qsum (x :: l) == x + Qsum l.
Proof.
  unfold Qsum. simpl. rewrite fold_left_Qplus. ring.
Qed.

Lemma Qsum_perm (l l' : list Q) : Permutation l l' -> Qsum l == Qsum l'.
Proof.
  induction 1 as [|x l l' _ IH|x y l|l l' l'' _ IH1 _ IH2].
  - reflexivity.
  - rewrite !Qsum_cons, IH. reflexivity.
  - rewrite !Qsum_cons. ring.
  - rewrite IH1. exact IH2.
Qed.

(** C3: for a cluster id [c] of 1, 2, 3 and any split of the result table
    into the records whose calculated cluster is [c] (at least one) and the
    others, the analyzer's average revenue for [c] is the sum of the revenues
    of the former divided by their number.  The existing labels play no
    part. *)
Theorem average_revenue_is_cluster_mean
  (results_df members others : list ResultRow) (c : nat) :
  In c [1; 2; 3]%nat ->
  Permutation results_df (members ++ others) ->
  Forall (fun r => Calculated_Cluster r = c) members ->
  Forall (fun r => Calculated_Cluster r <> c) others ->
  members <> [] ->
  exists p q,
    dict_get (analyze_cluster_characteristics results_df) c = Some p /\
    avg_omset p = PFin q /\
    q == Qsum (map Omset members) / inject_Z (Z.of_nat (length members)).
Proof.
  intros Hc Hperm Hin Hout Hne.
  rewrite (dict_get_analysis results_df c Hc).
  pose proof (cluster_selection results_df members others c Hperm Hin Hout)
    as Hsel.
  unfold cluster_profile.
  set (cluster_data :=
         filter (fun r => (Calculated_Cluster r =? c)%nat) results_df) in *.
  destruct cluster_data as [|r0 rest] eqn:E.
  - apply Permutation_nil in Hsel. congruence.
  - eexists. eexists. split; [reflexivity|]. split; [reflexivity|].
    rewrite (Qsum_perm _ _ (Permutation_map Omset Hsel)).
    rewrite length_map, (Permutation_length Hsel). reflexivity.
Qed.

(** *** First occurrences *)

Lemma first_index_lt (k : string) (l : list string) :
  In k l -> (first_index k l < length l)%nat.
Proof.
  induction l as [|y l IH]; simpl; [intros []|]. intro H.
  destruct (String.eqb_spec y k) as [_ | Hne]; [lia|].
  destruct H as [H | H]; [contradiction|]. specialize (IH H). lia.
Qed.

Lemma first_index_app_in (k : string) (l l' : list string) :
  In k l -> first_index k (l ++ l') = first_index k l.
Proof.
  induction l as [|y l IH]; simpl; [intros []|]. intro H.
  destruct (String.eqb_spec y k) as [_ | Hne]; [reflexivity|].
  destruct H as [H | H]; [contradiction|]. rewrite (IH H). reflexivity.
Qed.

Lemma first_index_app_notin (k : string) (l l' : list string) :
  ~ In k l -> first_index k (l ++ l') = (length l + first_index k l')%nat.
Proof.
  induction l as [|y l IH]; simpl; [reflexivity|]. intro H.
  destruct (String.eqb_spec y k) as [-> | Hne]; [tauto|].
  rewrite IH by tauto. reflexivity.
Qed.

(** *** [Counter] *)

Lemma Counter_snoc (l : list string) (x : string) :
  Counter (l ++ [x]) = counter_add x (Counter l).
Proof. unfold Counter. rewrite fold_left_app. reflexivity. Qed.

Lemma counter_add_known (x : string) (c : list (string * nat)) :
  In x (map fst c) -> map fst (counter_add x c) = map fst c.
Proof.
  induction c as [|[k n] c IH]; simpl; [intros []|]. intro H.
  destruct (String.eqb_spec k x) as [_ | Hne]; [reflexivity|].
  destruct H as [H | H]; [contradiction|]. simpl. rewrite (IH H). reflexivity.
Qed.

Lemma counter_add_new (x : string) (c : list (string * nat)) :
  ~ In x (map fst c) -> counter_add x c = c ++ [(x, 1%nat)].
Proof.
  induction c as [|[k n] c IH]; simpl; [reflexivity|]. intro H.
  destruct (String.eqb_spec k x) as [-> | Hne]; [tauto|].
  rewrite IH by tauto. reflexivity.
Qed.

(** What an entry of the updated counter was before the update. *)
Lemma counter_add_entry (x : string) (c : list (string * nat)) (k : string) (n : nat) :
  NoDup (map fst c) ->
  In (k, n) (counter_add x c) ->
  (k <> x /\ In (k, n) c) \/
  (k = x /\ ((exists m, In (x, m) c /\ n = S m) \/
             (~ In x (map fst c) /\ n = 1%nat))).
Proof.
  induction c as [|[k0 n0] c IH]; simpl; intros Hnd Hin.
  - destruct Hin as [Hin | []]. injection Hin as <- <-. right. tauto.
  - apply NoDup_cons_iff in Hnd. destruct Hnd as [Hk0 Hnd].
    destruct (String.eqb_spec k0 x) as [-> | Hne].
    + destruct Hin as [Hin | Hin].
      * injection Hin as <- <-. right. split; [reflexivity|].
        left. exists n0. split; [left; reflexivity | reflexivity].
      * left. split; [|right; exact Hin].
        intros ->. apply Hk0. apply (in_map fst) in Hin. exact Hin.
    + destruct Hin as [Hin | Hin].
      * injection Hin as <- <-. left. split; [exact Hne | left; reflexivity].
      * destruct (IH Hnd Hin) as [[Hkx Hc] | [-> [(m & Hm & ->) | [Hnew ->]]]].
        -- left. split; [exact Hkx | right; exact Hc].
        -- right. split; [reflexivity|]. left. exists m. split; [right; exact Hm | reflexivity].
        -- right. split; [reflexivity|]. right. split; [|reflexivity].
           intros [H | H]; [apply Hne; exact H | apply Hnew; exact H].
Qed.

Lemma StronglySorted_snoc {A : Type} (R : A -> A -> Prop) (l : list A) (x : A) :
  StronglySorted R l -> Forall (fun a => R a x) l -> StronglySorted R (l ++ [x]).
Proof.
  induction 1 as [|a l Hl IH Ha]; intro Hx; simpl.
  - constructor; constructor.
  - apply Forall_cons_iff in Hx. destruct Hx as [Hax Hx].
    constructor; [apply IH; exact Hx|].
    apply Forall_app. split; [exact Ha | constructor; [exact Hax | constructor]].
Qed.

Lemma StronglySorted_weaken {A : Type} (R R' : A -> A -> Prop) (l : list A) :
  (forall a b, In a l -> In b l -> R a b -> R' a b) ->
  StronglySorted R l -> StronglySorted R' l.
Proof.
  intros HR Hs. induction Hs as [|a l Hl IH Ha]; constructor.
  - apply IH. intros x y Hx Hy. apply HR; right; assumption.
  - rewrite Forall_forall in *. intros b Hb.
    apply HR; [left; reflexivity | right; exact Hb | apply Ha; exact Hb].
Qed.

Lemma StronglySorted_map {A B : Type} (f : A -> B) (R : B -> B -> Prop)
  (l : list A) :
  StronglySorted R (map f l) -> StronglySorted (fun a b => R (f a) (f b)) l.
Proof.
  induction l as [|a l IH]; simpl; intro H; [constructor|].
  apply StronglySorted_inv in H. destruct H as [Hl Ha].
  constructor; [apply IH; exact Hl|].
  rewrite Forall_map in Ha. exact Ha.
Qed.

(** The counter of [l] has one entry per distinct item of [l], holding the
    number of its occurrences, and lists the items in the order in which
    they are first met. *)
Lemma Counter_spec (l : list string) :
  NoDup (map fst (Counter l)) /\
  (forall k, In k (map fst (Counter l)) <-> In k l) /\
  (forall k n, In (k, n) (Counter l) -> n = count_occ string_dec l k) /\
  StronglySorted (fun a b => (first_index a l < first_index b l)%nat)
    (map fst (Counter l)).
Proof.
  induction l as [|x l (Hnd & Hkeys & Hcnt & Hord)] using rev_ind.
  - unfold Counter. simpl. split; [constructor|]. split; [tauto|].
    split; [intros k n []|constructor].
  - rewrite Counter_snoc.
    assert (Hord' : StronglySorted
              (fun a b => (first_index a (l ++ [x]) < first_index b (l ++ [x]))%nat)
              (map fst (Counter l))).
    { revert Hord. apply StronglySorted_weaken. intros a b Ha Hb Hab.
      rewrite !first_index_app_in by (apply Hkeys; assumption). exact Hab. }
    destruct (in_dec string_dec x (map fst (Counter l))) as [Hx | Hx].
    + rewrite counter_add_known by exact Hx.
      split; [exact Hnd|]. split; [|split; [|exact Hord']].
      * intro k. rewrite in_app_iff, Hkeys. simpl.
        split; [tauto|]. intros [H | [<- | []]]; [exact H | apply Hkeys; exact Hx].
      * intros k n Hin. rewrite count_occ_app.
        destruct (counter_add_entry x (Counter l) k n Hnd Hin)
          as [[Hkx Hc] | [-> [(m & Hm & ->) | [Hnew _]]]].
        -- rewrite (Hcnt k n Hc). simpl.
           destruct (string_dec x k) as [-> | _]; [congruence | lia].
        -- rewrite (Hcnt x m Hm). simpl.
           destruct (string_dec x x) as [_ | Hxx]; [lia | congruence].
        -- contradiction.
    + assert (Hl : ~ In x l) by (rewrite <- Hkeys; exact Hx).
      rewrite counter_add_new by exact Hx. rewrite map_app. simpl.
      split; [|split; [|split]].
      * apply NoDup_app; [exact Hnd | constructor; [intros [] | constructor] |].
        intros a Ha [<- | []]. contradiction.
      * intro k. rewrite !in_app_iff, Hkeys. reflexivity.
      * intros k n Hin. rewrite count_occ_app.
        apply in_app_or in Hin. destruct Hin as [Hin | [Hin | []]].
        -- rewrite (Hcnt k n Hin). simpl.
           destruct (string_dec x k) as [<- | _]; [|lia].
           exfalso. apply Hx. apply (in_map fst) in Hin. exact Hin.
        -- injection Hin as <- <-.
           rewrite (count_occ_not_In string_dec) in Hl. rewrite Hl. simpl.
           destruct (string_dec x x) as [_ | Hxx]; [reflexivity | congruence].
      * apply StronglySorted_snoc; [exact Hord'|].
        apply Forall_forall. intros a Ha.
        rewrite first_index_app_in by (apply Hkeys; exact Ha).
        rewrite first_index_app_notin by exact Hl. simpl.
        rewrite String.eqb_refl.
        pose proof (first_index_lt a l (proj1 (Hkeys a) Ha)). lia.
Qed.

(** *** The stable sort by descending count *)

Section StableSort.

(** [pos] gives the place of a key in the order of first occurrence. *)
Variable pos : string -> nat.

Lemma insert_desc_perm (x : string * nat) (l : list (string * nat)) :
  Permutation (x :: l) (insert_desc x l).
Proof.
  induction l as [|y l IH]; simpl; [apply Permutation_refl|].
  destruct (snd x <? snd y)%nat; [|apply Permutation_refl].
  eapply Permutation_trans; [apply perm_swap|]. constructor. exact IH.
Qed.

Lemma sorted_desc_perm (l : list (string * nat)) :
  Permutation l (sorted_desc l).
Proof.
  induction l as [|x l IH]; simpl; [constructor|].
  eapply Permutation_trans; [|apply insert_desc_perm]. constructor. exact IH.
Qed.

(** Inserting an item met before every item of a sorted list keeps the list
    sorted: it goes behind the items of greater count only. *)
Lemma insert_desc_sorted (x : string * nat) (l : list (string * nat)) :
  StronglySorted (item_before pos) l ->
  Forall (fun y => (pos (fst x) < pos (fst y))%nat) l ->
  StronglySorted (item_before pos) (insert_desc x l).
Proof.
  induction 1 as [|y l Hl IH Hy]; intro Hx; simpl.
  - constructor; constructor.
  - apply Forall_cons_iff in Hx. destruct Hx as [Hxy Hx].
    destruct (Nat.ltb_spec (snd x) (snd y)) as [Hlt | Hge].
    + constructor; [apply IH; exact Hx|].
      apply Forall_forall. intros z Hz.
      apply (Permutation_in _ (Permutation_sym (insert_desc_perm x l))) in Hz.
      destruct Hz as [<- | Hz]; [left; exact Hlt|].
      rewrite Forall_forall in Hy. apply Hy; exact Hz.
    + constructor; [constructor; assumption|].
      assert (Hfirst : item_before pos x y).
      { unfold item_before.
        destruct (Nat.eq_dec (snd y) (snd x)) as [He | Hn]; [right | left]; lia. }
      constructor; [exact Hfirst|].
      rewrite Forall_forall in *. intros z Hz.
      specialize (Hy z Hz). specialize (Hx z Hz). unfold item_before in *.
      destruct (Nat.eq_dec (snd z) (snd x)) as [He | Hn]; [right | left]; lia.
Qed.

Lemma sorted_desc_sorted (l : list (string * nat)) :
  StronglySorted (fun a b => (pos (fst a) < pos (fst b))%nat) l ->
  StronglySorted (item_before pos) (sorted_desc l).
Proof.
  induction 1 as [|x l Hl IH Hx]; simpl; [constructor|].
  apply insert_desc_sorted; [exact IH|].
  rewrite Forall_forall in *. intros y Hy. apply Hx.
  apply (Permutation_in _ (Permutation_sym (sorted_desc_perm l))). exact Hy.
Qed.

End StableSort.

Lemma StronglySorted_app_inv {A : Type} (R : A -> A -> Prop) (l1 l2 : list A) :
  StronglySorted R (l1 ++ l2) ->
  StronglySorted R l1 /\ forall a b, In a l1 -> In b l2 -> R a b.
Proof.
  induction l1 as [|x l1 IH]; simpl; intro H.
  - split; [constructor | intros a b []].
  - apply StronglySorted_inv in H. destruct H as [Hl Hx].
    destruct (IH Hl) as [Hl1 Hcross].
    apply Forall_app in Hx. destruct Hx as [Hx1 Hx2].
    split; [constructor; assumption|].
    intros a b [<- | Ha] Hb; [|apply Hcross; assumption].
    rewrite Forall_forall in Hx2. apply Hx2; exact Hb.
Qed.

Lemma StronglySorted_nth {A : Type} (R : A -> A -> Prop) (l : list A) (d : A) :
  StronglySorted R l ->
  forall i j, (i < j < length l)%nat -> R (nth i l d) (nth j l d).
Proof.
  induction 1 as [|x l Hl IH Hx]; intros i j Hij; simpl in Hij; [lia|].
  destruct j as [|j]; [lia|]. destruct i as [|i]; simpl.
  - rewrite Forall_forall in Hx. apply Hx. apply nth_In. lia.
  - apply IH. lia.
Qed.

(** The three most common items of a counter, spelled out. *)
Lemma most_common_spec (names : list string) :
  let top := most_common 3 (Counter names) in
  exists rest,
    Permutation (Counter names) (top ++ rest) /\
    (length top = Nat.min 3 (length (Counter names))) /\
    StronglySorted (item_before (fun k => first_index k names)) (top ++ rest).
Proof.
  intro top. exists (skipn 3 (sorted_desc (Counter names))).
  unfold top, most_common. rewrite firstn_skipn.
  split; [apply sorted_desc_perm|]. split.
  - rewrite length_firstn.
    rewrite (Permutation_length (sorted_desc_perm (Counter names))). reflexivity.
  - apply sorted_desc_sorted.
    destruct (Counter_spec names) as (_ & _ & _ & Hord).
    apply StronglySorted_map in Hord. exact Hord.
Qed.

Lemma item_before_ranks (names : list string) (a b : string * nat) :
  In a (Counter names) -> In b (Counter names) ->
  item_before (fun k => first_index k names) a b ->
  ranks_before names (fst a) (fst b).
Proof.
  destruct (Counter_spec names) as (_ & _ & Hcnt & _).
  destruct a as [ka na], b as [kb nb]. intros Ha Hb.
  rewrite (Hcnt ka na Ha), (Hcnt kb nb Hb). unfold item_before, ranks_before.
  simpl. tauto.
Qed.

(** C4: for each cluster id the dominant products are at most three product
    names of the cluster's records, each listed once; as many as there are
    distinct names when these are fewer than three; in rank order, a more
    frequent name before a less frequent one and, at equal frequency, the
    name first met earlier before the other; and every name of the cluster
    that is left out ranks after every name listed. *)
Theorem dominant_products_top3 (results_df : list ResultRow) (c : nat) :
  In c [1; 2; 3]%nat ->
  exists p,
    dict_get (analyze_cluster_characteristics results_df) c = Some p /\
    let names := cluster_products results_df c in
    let dp := dominant_products p in
    (length dp <= 3)%nat /\
    NoDup dp /\
    (forall x, In x dp -> In x names) /\
    length dp = Nat.min 3 (length (nodup string_dec names)) /\
    (forall i j, (i < j < length dp)%nat ->
                 ranks_before names (nth i dp EmptyString) (nth j dp EmptyString)) /\
    (forall x y, In x dp -> In y names -> ~ In y dp -> ranks_before names x y).
Proof.
  intro Hc. rewrite (dict_get_analysis results_df c Hc).
  eexists. split; [reflexivity|]. cbv zeta.
  unfold cluster_profile. cbn [dominant_products]. fold (cluster_products results_df c).
  set (names := cluster_products results_df c).
  destruct (most_common_spec names) as (rest & Hperm & Hlen & Hsorted).
  set (top := most_common 3 (Counter names)) in *.
  destruct (Counter_spec names) as (Hnd & Hkeys & Hcnt & _).
  destruct (StronglySorted_app_inv _ _ _ Hsorted) as [Htop Hcross].
  assert (Hin_top : forall a, In a top -> In a (Counter names)).
  { intros a Ha. apply (Permutation_in _ (Permutation_sym Hperm)).
    apply in_or_app. left; exact Ha. }
  assert (Hin_rest : forall a, In a rest -> In a (Counter names)).
  { intros a Ha. apply (Permutation_in _ (Permutation_sym Hperm)).
    apply in_or_app. right; exact Ha. }
  assert (Hnd' : NoDup (map fst top ++ map fst rest)).
  { rewrite <- map_app. eapply Permutation_NoDup; [|exact Hnd].
    apply Permutation_map. exact Hperm. }
  rewrite length_map. split; [|split; [|split; [|split; [|split]]]].
  - rewrite Hlen. apply Nat.le_min_l.
  - apply NoDup_app_remove_r in Hnd'. exact Hnd'.
  - intros x Hx. apply in_map_iff in Hx. destruct Hx as (a & <- & Ha).
    apply Hkeys. apply in_map. apply Hin_top. exact Ha.
  - rewrite Hlen. f_equal. rewrite <- (length_map fst (Counter names)).
    apply Permutation_length. apply NoDup_Permutation.
    + exact Hnd.
    + apply NoDup_nodup.
    + intro k. rewrite nodup_In. apply Hkeys.
  - intros i j Hij.
    change EmptyString with (fst (EmptyString, 0%nat)). rewrite !map_nth.
    apply item_before_ranks.
    + apply Hin_top. apply nth_In. lia.
    + apply Hin_top. apply nth_In. lia.
    + apply StronglySorted_nth; assumption.
  - intros x y Hx Hy Hny.
    apply in_map_iff in Hx. destruct Hx as (a & <- & Ha).
    apply Hkeys in Hy. apply in_map_iff in Hy. destruct Hy as (b & <- & Hb).
    apply item_before_ranks; [apply Hin_top; exact Ha | exact Hb|].
    apply Hcross; [exact Ha|].
    apply (Permutation_in _ Hperm) in Hb. apply in_app_or in Hb.
    destruct Hb as [Hb | Hb]; [|exact Hb].
    exfalso. apply Hny. apply in_map. exact Hb.
Qed.

(** The analyzer on a cluster without records: it returns normally, and
    the profile holds NaN as average revenue, no dominant product, and the
    characteristic text fixed for the id. *)
Lemma empty_cluster_profile (results_df : list ResultRow) (c : nat) :
  In c [1; 2; 3]%nat ->
  Forall (fun r => Calculated_Cluster r <> c) results_df ->
  exists p,
    dict_get (analyze_cluster_characteristics results_df) c = Some p /\
    avg_omset p = PNaN /\
    dominant_products p = [] /\
    characteristics p =
    nth (c - 1)
      [ "Toko dengan penjualan rendah atau baru memulai"%string;
        "Toko dengan stabilitas penjualan menengah"%string;
        "Toko dengan performa penjualan tinggi"%string ] EmptyString.
Proof.
  intros Hc Hnone. rewrite (dict_get_analysis results_df c Hc).
  eexists. split; [reflexivity|]. unfold cluster_profile.
  rewrite (filter_none _ results_df).
  - simpl. repeat split.
    destruct Hc as [<- | [<- | [<- | []]]]; reflexivity.
  - eapply Forall_impl; [|exact Hnone].
    intros r Hr. apply Nat.eqb_neq. exact Hr.
Qed.

Lemma cluster_average_cases (results_df : list ResultRow) (c : nat) :
  (Forall (fun r => Calculated_Cluster r <> c) results_df /\
   avg_omset (cluster_profile results_df c) = PNaN) \/
  ((exists r, In r results_df /\ Calculated_Cluster r = c) /\
   exists q, avg_omset (cluster_profile results_df c) = PFin q).
Proof.
  unfold cluster_profile. cbn [avg_omset].
  destruct (filter (fun r => (Calculated_Cluster r =? c)%nat) results_df)
    as [|r0 sel] eqn:E.
  - left. split; [|reflexivity].
    apply Forall_forall. intros r Hr Hc.
    assert (Hin : In r (filter (fun r => (Calculated_Cluster r =? c)%nat)
                          results_df)).
    { apply filter_In. split; [exact Hr | apply Nat.eqb_eq; exact Hc]. }
    rewrite E in Hin. destruct Hin.
  - right. split.
    + exists r0.
      assert (Hin : In r0 (filter (fun r => (Calculated_Cluster r =? c)%nat)
                             results_df)) by (rewrite E; left; reflexivity).
      apply filter_In in Hin. destruct Hin as [Hin Hc].
      split; [exact Hin | apply Nat.eqb_eq; exact Hc].
    + eexists. reflexivity.
Qed.

(** The cluster lines of the report for the analysis of a table: written
    when the three averages are finite, [TypeError] otherwise. *)
Lemma write_clusters_analysis (results_df : list ResultRow) :
  match avg_omset (cluster_profile results_df 1),
        avg_omset (cluster_profile results_df 2),
        avg_omset (cluster_profile results_df 3) with
  | PFin _, PFin _, PFin _ =>
      exists cells,
        write_clusters (9 + 2) (analyze_cluster_characteristics results_df)
          [1; 2; 3]%nat = Ok cells
  | _, _, _ =>
      write_clusters (9 + 2) (analyze_cluster_characteristics results_df)
        [1; 2; 3]%nat = Raise TypeError
  end.
Proof.
  rewrite analyze_cluster_characteristics_unfold.
  cbn [write_clusters write_cluster_info dict_get Nat.eqb].
  destruct (avg_omset (cluster_profile results_df 1));
    destruct (avg_omset (cluster_profile results_df 2));
    destruct (avg_omset (cluster_profile results_df 3));
    cbn [write_float bind]; try reflexivity.
  eexists. reflexivity.
Qed.

(** C5: for a cluster id [c] of 1, 2, 3 to which no record is assigned, the
    analyzer returns normally, with NaN as average revenue, no dominant
    product and the characteristic text of [c]; but the report does not show
    that value: on a non-empty table with such a cluster
    [create_excel_report] raises [TypeError] when it writes the average, and
    no report is produced.  When every cluster has a record the report is
    written. *)
Theorem empty_cluster_breaks_report (results_df : list ResultRow) (cs : list Q) :
  results_df <> [] ->
  (forall c,
      In c [1; 2; 3]%nat ->
      Forall (fun r => Calculated_Cluster r <> c) results_df ->
      (exists p,
          dict_get (analyze_cluster_characteristics results_df) c = Some p /\
          avg_omset p = PNaN /\
          dominant_products p = [] /\
          characteristics p =
          nth (c - 1)
            [ "Toko dengan penjualan rendah atau baru memulai"%string;
              "Toko dengan stabilitas penjualan menengah"%string;
              "Toko dengan performa penjualan tinggi"%string ] EmptyString) /\
      create_excel_report results_df cs
        (analyze_cluster_characteristics results_df) = Raise TypeError) /\
  ((forall c, In c [1; 2; 3]%nat ->
              exists r, In r results_df /\ Calculated_Cluster r = c) ->
   exists workbook,
     create_excel_report results_df cs
       (analyze_cluster_characteristics results_df) = Ok workbook).
Proof.
  intro Hne. unfold create_excel_report.
  rewrite (summary_data_nonempty results_df Hne). cbn [bind].
  pose proof (write_clusters_analysis results_df) as Hw.
  split.
  - intros c Hc Hnone. split; [apply empty_cluster_profile; assumption|].
    assert (Hnan : avg_omset (cluster_profile results_df c) = PNaN).
    { destruct (cluster_average_cases results_df c)
        as [[_ H] | [(r & Hr & Hrc) _]]; [exact H|].
      rewrite Forall_forall in Hnone. exfalso. exact (Hnone r Hr Hrc). }
    destruct Hc as [<- | [<- | [<- | []]]]; rewrite Hnan in Hw.
    + rewrite Hw. reflexivity.
    + destruct (avg_omset (cluster_profile results_df 1));
        rewrite Hw; reflexivity.
    + destruct (avg_omset (cluster_profile results_df 1));
        destruct (avg_omset (cluster_profile results_df 2));
        rewrite Hw; reflexivity.
  - intro Hall.
    assert (Hfin : forall c, In c [1; 2; 3]%nat ->
                     exists q, avg_omset (cluster_profile results_df c) = PFin q).
    { intros c Hc.
      destruct (cluster_average_cases results_df c) as [[Hnone _] | [_ H]];
        [|exact H].
      destruct (Hall c Hc) as (r & Hr & Hrc).
      rewrite Forall_forall in Hnone. exfalso. exact (Hnone r Hr Hrc). }
    destruct (Hfin 1%nat) as (q1 & H1); [simpl; tauto|].
    destruct (Hfin 2%nat) as (q2 & H2); [simpl; tauto|].
    destruct (Hfin 3%nat) as (q3 & H3); [simpl; tauto|].
    rewrite H1, H2, H3 in Hw. destruct Hw as (cells & ->).
    eexists. reflexivity.
Qed.

Lemma empty_cluster_breaks_report_witness :
  (exists p,
      dict_get (analyze_cluster_characteristics example_results) 3 = Some p /\
      avg_omset p = PNaN /\
      dominant_products p = [] /\
      characteristics p = "Toko dengan performa penjualan tinggi"%string) /\
  create_excel_report example_results centroids
    (analyze_cluster_characteristics example_results) = Raise TypeError.
Proof.
  apply (proj1 (empty_cluster_breaks_report example_results centroids
                  ltac:(discriminate)) 3%nat).
  - simpl. tauto.
  - repeat constructor; simpl; lia.
Defined.

(** ** Data loader *)

Lemma string_app_assoc (a b c : string) :
  ((a ++ b) ++ c = a ++ (b ++ c))%string.
Proof.
  induction a as [|ch a IH]; simpl; [reflexivity|]. rewrite IH. reflexivity.
Qed.

Lemma str_replace_app (old : ascii) (new a b : string) :
  str_replace old new (a ++ b)
  = (str_replace old new a ++ str_replace old new b)%string.
Proof.
  induction a as [|ch a IH]; simpl; [reflexivity|].
  destruct (Ascii.eqb ch old); rewrite IH.
  - rewrite string_app_assoc. reflexivity.
  - reflexivity.
Qed.

Lemma str_replace_comma_filter (text : string) :
  list_ascii_of_string (str_replace "," "" text)
  = filter (fun ch => negb (Ascii.eqb ch ",")) (list_ascii_of_string text).
Proof.
  induction text as [|ch text IH]; simpl; [reflexivity|].
  destruct (Ascii.eqb ch ","); simpl; rewrite IH; reflexivity.
Qed.

Lemma decimal_char_plain (c : ascii) :
  decimal_char c = true -> is_space c = false /\ Ascii.eqb "_" c = false.
Proof.
  destruct c as [[] [] [] [] [] [] [] []]; vm_compute; intro H;
    try discriminate H; split; reflexivity.
Qed.

Lemma number_start_plain (c : ascii) :
  number_start c = true ->
  Ascii.eqb c "-" = false /\ Ascii.eqb c "+" = false /\
  Ascii.eqb (to_lower c) "i" = false /\ Ascii.eqb (to_lower c) "n" = false.
Proof.
  destruct c as [[] [] [] [] [] [] [] []]; vm_compute; intro H;
    try discriminate H; repeat split; reflexivity.
Qed.

Lemma digit_decimal_char (c : ascii) : is_digit c = true -> decimal_char c = true.
Proof. unfold decimal_char. intros ->. reflexivity. Qed.

Lemma drop_while_keep (p : ascii -> bool) (l : list ascii) :
  Forall (fun c => p c = false) l -> drop_while p l = l.
Proof.
  destruct 1 as [|c l Hc _]; simpl; [reflexivity|]. rewrite Hc. reflexivity.
Qed.

Lemma strip_plain (l : list ascii) :
  Forall (fun c => is_space c = false) l -> strip l = l.
Proof.
  intro H. unfold strip. rewrite (drop_while_keep _ l H).
  rewrite (drop_while_keep _ (rev l)) by (apply Forall_rev; exact H).
  apply rev_involutive.
Qed.

Lemma no_underscore (l : list ascii) :
  Forall (fun c => Ascii.eqb "_" c = false) l ->
  existsb (Ascii.eqb "_") l = false.
Proof.
  induction 1 as [|c l Hc _ IH]; cbn [existsb]; [reflexivity|].
  rewrite Hc, IH. reflexivity.
Qed.

Lemma span_digits (ds rest : list ascii) :
  forallb is_digit ds = true ->
  match rest with [] => True | c :: _ => is_digit c = false end ->
  span is_digit (ds ++ rest) = (ds, rest).
Proof.
  intros Hds Hrest. induction ds as [|d ds IH]; simpl in *.
  - destruct rest as [|c r]; simpl; [reflexivity|]. rewrite Hrest. reflexivity.
  - apply andb_true_iff in Hds. destruct Hds as [-> Hds].
    rewrite (IH Hds). reflexivity.
Qed.

(** [float()] once the text is known to need no stripping and to hold no
    underscore. *)
Lemma py_float_plain (s : string) (c : ascii) (t : list ascii) :
  list_ascii_of_string s = c :: t ->
  Forall (fun a => decimal_char a = true) (c :: t) ->
  py_float s =
  let (negative, body) := split_sign (c :: t) in
  match parse_inf_or_nan negative body with
  | Some x => Ok x
  | None =>
      match parse_number body with
      | Some q => Ok (PFin (if negative then - q else q))
      | None => Raise ValueError
      end
  end.
Proof.
  intros Hs Hplain. unfold py_float. rewrite Hs.
  rewrite strip_plain.
  - rewrite no_underscore; [reflexivity|].
    eapply Forall_impl; [|exact Hplain].
    intros a Ha. apply decimal_char_plain; exact Ha.
  - eapply Forall_impl; [|exact Hplain].
    intros a Ha. apply decimal_char_plain; exact Ha.
Qed.

(** The unsigned part of a plain decimal number parses as a number. *)
Lemma parse_number_decimal (int_part frac : list ascii) :
  forallb is_digit int_part = true ->
  ((frac = [] /\ int_part <> []) \/
   exists frac_digits,
     frac = "."%char :: frac_digits /\
     forallb is_digit frac_digits = true /\
     int_part ++ frac_digits <> []) ->
  exists q, parse_number (int_part ++ frac) = Some q.
Proof.
  intros Hint [[-> Hne] | (fd & -> & Hfd & Hne)]; unfold parse_number.
  - rewrite span_digits by (exact Hint || exact I). cbv beta iota.
    rewrite app_nil_r. destruct int_part as [|d ds]; [congruence|].
    eexists; reflexivity.
  - rewrite span_digits by (exact Hint || reflexivity). cbv beta iota.
    pose proof (span_digits fd [] Hfd I) as Hspan. rewrite app_nil_r in Hspan.
    rewrite Hspan. cbv beta iota.
    destruct (int_part ++ fd) as [|d ds] eqn:E; [congruence|].
    eexists; reflexivity.
Qed.

Lemma parse_inf_or_nan_number (negative : bool) (c : ascii) (t : list ascii) :
  number_start c = true -> parse_inf_or_nan negative (c :: t) = None.
Proof.
  intro Hc. destruct (number_start_plain c Hc) as (_ & _ & Hi & Hn).
  unfold parse_inf_or_nan. simpl. rewrite Hi, Hn. reflexivity.
Qed.

Lemma py_float_decimal (s : string) :
  decimal_text s -> exists q, py_float s = Ok (PFin q).
Proof.
  intros (sign & int_part & frac & Hs & Hsign & Hint & Hfrac).
  assert (Hbody : exists c t, int_part ++ frac = c :: t /\ number_start c = true).
  { destruct int_part as [|d ds].
    - destruct Hfrac as [[_ Hne] | (fd & -> & _ & _)]; [congruence|].
      exists "."%char, fd. split; reflexivity.
    - exists d, (ds ++ frac). split; [reflexivity|].
      simpl in Hint. apply andb_true_iff in Hint. destruct Hint as [Hd _].
      unfold number_start. rewrite Hd. reflexivity. }
  destruct Hbody as (c & t & Hbody & Hc).
  assert (Hchars : Forall (fun a => decimal_char a = true) (int_part ++ frac)).
  { apply Forall_app. split.
    - apply Forall_forall. intros a Ha. apply digit_decimal_char.
      rewrite forallb_forall in Hint. apply Hint; exact Ha.
    - destruct Hfrac as [[-> _] | (fd & -> & Hfd & _)]; constructor.
      + reflexivity.
      + apply Forall_forall. intros a Ha. apply digit_decimal_char.
        rewrite forallb_forall in Hfd. apply Hfd; exact Ha. }
  destruct (parse_number_decimal int_part frac Hint Hfrac) as (q & Hq).
  destruct (number_start_plain c Hc) as (Hminus & Hplus & _).
  destruct Hsign as [-> | [-> | ->]]; simpl in Hs.
  - rewrite Hbody in Hs, Hchars, Hq.
    rewrite (py_float_plain s c t Hs Hchars).
    unfold split_sign. rewrite Hminus, Hplus.
    rewrite (parse_inf_or_nan_number false c t Hc), Hq.
    eexists; reflexivity.
  - rewrite (py_float_plain s "+"%char (int_part ++ frac) Hs)
      by (constructor; [reflexivity | exact Hchars]).
    simpl split_sign. rewrite Hbody in *.
    rewrite (parse_inf_or_nan_number false c t Hc), Hq.
    eexists; reflexivity.
  - rewrite (py_float_plain s "-"%char (int_part ++ frac) Hs)
      by (constructor; [reflexivity | exact Hchars]).
    simpl split_sign. rewrite Hbody in *.
    rewrite (parse_inf_or_nan_number true c t Hc), Hq.
    eexists; reflexivity.
Qed.

Lemma load_omset_decimal (text : string) :
  decimal_text (str_replace "," "" text) ->
  exists q, load_omset text = Ok (PFin q).
Proof. intro H. unfold load_omset. apply py_float_decimal; exact H. Qed.

Lemma load_data_decimal (omset_column : list string) :
  Forall (fun text => decimal_text (str_replace "," "" text)) omset_column ->
  exists xs, load_data omset_column = Ok xs /\ length xs = length omset_column.
Proof.
  induction 1 as [|text rest Htext _ (xs & Hxs & Hlen)]; simpl.
  - exists []. split; reflexivity.
  - destruct (load_omset_decimal text Htext) as (q & ->). rewrite Hxs. simpl.
    exists (PFin q :: xs). split; [reflexivity | simpl; lia].
Qed.

(** C10: the loader deletes every comma of the revenue text, wherever it
    stands, before the conversion to float: the converted text is the
    original without its commas, so a comma may be added or dropped anywhere
    without changing the outcome, "1,2,3" loads as 123, and no grouping is
    checked.  A text whose comma-free form is a plain decimal number is
    always converted; hence the conversion, of an entry or of the column,
    fails only when the comma-free form of an entry is not one. *)
Theorem load_data_strips_every_comma :
  (forall text : string,
      list_ascii_of_string (str_replace "," "" text)
      = filter (fun ch => negb (Ascii.eqb ch ","))
          (list_ascii_of_string text)) /\
  (forall a b : string,
      load_omset (a ++ "," ++ b) = load_omset (a ++ b)) /\
  load_omset "1,2,3" = Ok (PFin 123) /\
  load_omset "1,23,,4.5," = Ok (PFin 1234.5) /\
  load_omset ",12,34" = load_omset "1,234" /\
  (forall text : string,
      decimal_text (str_replace "," "" text) ->
      exists q, load_omset text = Ok (PFin q)) /\
  (forall omset_column : list string,
      Forall (fun text => decimal_text (str_replace "," "" text))
        omset_column ->
      exists xs,
        load_data omset_column = Ok xs /\ length xs = length omset_column) /\
  (forall (text : string) (e : exn),
      load_omset text = Raise e ->
      ~ decimal_text (str_replace "," "" text)) /\
  (forall (omset_column : list string) (e : exn),
      load_data omset_column = Raise e ->
      exists text,
        In text omset_column /\ ~ decimal_text (str_replace "," "" text)).
Proof.
  split; [exact str_replace_comma_filter|].
  split.
  { intros a b. unfold load_omset.
    rewrite !str_replace_app. simpl. reflexivity. }
  split; [reflexivity|]. split; [reflexivity|]. split; [reflexivity|].
  split; [exact load_omset_decimal|]. split; [exact load_data_decimal|]. split.
  - intros text e He Hdec.
    destruct (load_omset_decimal text Hdec) as (q & Hq). congruence.
  - intros omset_column. induction omset_column as [|text rest IH]; intros e He.
    + discriminate He.
    + simpl in He. destruct (load_omset text) as [x|e'] eqn:Hx.
      * simpl in He. destruct (load_data rest) as [xs|e''] eqn:Hxs;
          [discriminate He|].
        destruct (IH e'' eq_refl) as (t & Ht & Hbad).
        exists t. split; [right; exact Ht | exact Hbad].
      * exists text. split; [left; reflexivity|].
        intro Hdec. destruct (load_omset_decimal text Hdec) as (q & Hq).
        congruence.
Qed.

(** ** The theorems at concrete inputs *)

Lemma assign_cluster_empty_raises_witness :
  assign_cluster [] = Raise ValueError /\ @nil Q = [].
Proof.
  split.
  - exact (proj1 assign_cluster_empty_raises).
  - apply (proj2 assign_cluster_empty_raises [] ValueError). reflexivity.
Defined.

Lemma calculate_distances_spec_witness :
  nth 2 (calculate_distances 500000 centroids) 0
  == Qabs (500000 - nth 2 centroids 0).
Proof.
  apply (proj2 (proj1 calculate_distances_spec 500000 centroids) 2%nat).
  simpl. lia.
Defined.

Lemma unlabelled_record_counted_not_matched_witness :
  existing_cluster
    (Build_SalesRow (PInt 7) (PStr "Toko A") "kopi" 500000
       (PStr "0") (PStr "0") (PStr "0")) = None /\
  exists rs1 r rs2 s,
    main_results
      ([Build_SalesRow (PInt 6) (PStr "Toko B") "teh" 915000
          (PStr "0") (PStr "1") (PStr "0")]
       ++ Build_SalesRow (PInt 7) (PStr "Toko A") "kopi" 500000
            (PStr "0") (PStr "0") (PStr "0") :: [])
    = Ok (rs1 ++ r :: rs2) /\
    main_results
      ([Build_SalesRow (PInt 6) (PStr "Toko B") "teh" 915000
          (PStr "0") (PStr "1") (PStr "0")] ++ [])
    = Ok (rs1 ++ rs2) /\
    length rs1 = 1%nat /\ length rs2 = 0%nat /\
    Existing_Cluster r = None /\
    summary_data (rs1 ++ r :: rs2) = Ok s /\
    Total_Records s = S (length (rs1 ++ rs2)) /\
    Matching_Clusters s = matching_clusters (rs1 ++ rs2).
Proof.
  assert (H : forall s : string, s <> "1"%string -> PStr s <> PStr "1").
  { intros s Hs Heq. injection Heq as Heq. contradiction. }
  destruct (proj1 unlabelled_record_counted_not_matched
              (Build_SalesRow (PInt 7) (PStr "Toko A") "kopi" 500000
                 (PStr "0") (PStr "0") (PStr "0")))
    as [Hnone Hrun]; try (simpl; apply H; discriminate).
  split; [exact Hnone|].
  exact (Hrun
           [Build_SalesRow (PInt 6) (PStr "Toko B") "teh" 915000
              (PStr "0") (PStr "1") (PStr "0")] []).
Defined.

Lemma average_revenue_is_cluster_mean_witness :
  exists p q,
    dict_get
      (analyze_cluster_characteristics
         [ Build_ResultRow (PInt 1) (PStr "A") "kopi" 100 1 (Some 2%nat) [];
           Build_ResultRow (PInt 2) (PStr "B") "teh" 900000 2 (Some 1%nat) [];
           Build_ResultRow (PInt 3) (PStr "C") "gula" 300 1 None [] ]) 1
    = Some p /\
    avg_omset p = PFin q /\
    q == Qsum
           (map Omset
              [ Build_ResultRow (PInt 1) (PStr "A") "kopi" 100 1 (Some 2%nat) [];
                Build_ResultRow (PInt 3) (PStr "C") "gula" 300 1 None [] ])
         / inject_Z (Z.of_nat 2).
Proof.
  apply (average_revenue_is_cluster_mean
           [ Build_ResultRow (PInt 1) (PStr "A") "kopi" 100 1 (Some 2%nat) [];
             Build_ResultRow (PInt 2) (PStr "B") "teh" 900000 2 (Some 1%nat) [];
             Build_ResultRow (PInt 3) (PStr "C") "gula" 300 1 None [] ]
           [ Build_ResultRow (PInt 1) (PStr "A") "kopi" 100 1 (Some 2%nat) [];
             Build_ResultRow (PInt 3) (PStr "C") "gula" 300 1 None [] ]
           [ Build_ResultRow (PInt 2) (PStr "B") "teh" 900000 2 (Some 1%nat) [] ]
           1%nat).
  - simpl. tauto.
  - simpl. apply perm_skip. apply perm_swap.
  - repeat constructor.
  - constructor; [simpl; lia | constructor].
  - discriminate.
Defined.

Lemma load_data_strips_every_comma_witness :
  exists q, load_omset "1,234.50" = Ok (PFin q).
Proof.
  apply (proj1 (proj2 (proj2 (proj2 (proj2 (proj2
           load_data_strips_every_comma))))) "1,234.50"%string).
  exists [], ["1"%char; "2"%char; "3"%char; "4"%char],
    ["."%char; "5"%char; "0"%char].
  split; [reflexivity|]. split; [left; reflexivity|]. split; [reflexivity|].
  right. exists ["5"%char; "0"%char].
  split; [reflexivity|]. split; [reflexivity | discriminate].
Defined.

Lemma dominant_products_top3_witness :
  exists p,
    dict_get (analyze_cluster_characteristics example_results) 1 = Some p /\
    let names := cluster_products example_results 1 in
    let dp := dominant_products p in
    (length dp <= 3)%nat /\
    NoDup dp /\
    (forall x, In x dp -> In x names) /\
    length dp = Nat.min 3 (length (nodup string_dec names)) /\
    (forall i j, (i < j < length dp)%nat ->
                 ranks_before names (nth i dp EmptyString) (nth j dp EmptyString)) /\
    (forall x y, In x dp -> In y names -> ~ In y dp -> ranks_before names x y).
Proof.
  apply (dominant_products_top3 example_results 1%nat).
  simpl. tauto.
Defined.

(** ** Runs of the model *)

Example most_common_breaks_ties_by_first_met :
  map fst
    (most_common 3
       (Counter ["a"; "b"; "b"; "c"; "a"; "d"; "d"; "d"; "e"]%string))
  = ["d"; "a"; "b"]%string.
Proof. reflexivity. Qed.

Example most_common_of_two_names :
  most_common 3 (Counter ["teh"; "kopi"; "teh"]%string)
  = [("teh", 2%nat); ("kopi", 1%nat)]%string.
Proof. reflexivity. Qed.

Example example_results_cluster_1 :
  exists p,
    dict_get (analyze_cluster_characteristics example_results) 1 = Some p /\
    (exists q, avg_omset p = PFin q /\ q == 250000) /\
    dominant_products p = ["kopi"; "teh"]%string.
Proof.
  eexists. split; [reflexivity|]. split; [|reflexivity].
  eexists. split; reflexivity.
Qed.

Example example_results_summary :
  exists s,
    summary_data example_results = Ok s /\
    Total_Records s = 6%nat /\ Matching_Clusters s = 3%nat /\
    Match_Percentage s == 50 /\
    Count_Calculated s = [4; 2; 0]%nat /\ Count_Existing s = [2; 2; 1]%nat.
Proof. eexists. repeat split. Qed.

Example assign_cluster_tie_takes_first :
  assign_cluster (calculate_distances 669500 centroids) = Ok 1%nat /\
  nth 0 (calculate_distances 669500 centroids) 0
  == nth 1 (calculate_distances 669500 centroids) 0.
Proof. split; reflexivity. Qed.

Example py_float_spellings :
  py_float " -12.5e-1 " = Ok (PFin (-1.25)) /\
  py_float "1_000" = Ok (PFin 1000) /\
  py_float "-Infinity" = Ok (PInf true) /\
  py_float "NaN" = Ok PNaN /\
  py_float "1__0" = Raise ValueError /\
  py_float "1 2" = Raise ValueError /\
  py_float "" = Raise ValueError /\
  py_float "Rp 5" = Raise ValueError.
Proof. repeat split. Qed.

(** * Further properties of the code *)

(** ** Distances and the assigned cluster *)

(** Case analysis on every absolute value in sight, then linear
    arithmetic. *)
Ltac abs_lra :=
  repeat match goal with
         | |- context [Qabs ?x] => pattern (Qabs x); apply Qabs_case; intro
         | H : context [Qabs ?x] |- _ =>
             revert H; pattern (Qabs x); apply Qabs_case; intros
         end;
  try lra.

(** X1: a distance is never negative, and the distance at a position is 0
    exactly when the centroid there equals the revenue. *)
Theorem calculate_distances_nonneg (omset : Q) (cs : list Q) :
  (forall d, In d (calculate_distances omset cs) -> 0 <= d) /\
  (forall i, (i < length cs)%nat ->
             (nth i (calculate_distances omset cs) 0 == 0
              <-> nth i cs 0 == omset)).
Proof.
  split.
  - intros d Hd. unfold calculate_distances in Hd.
    apply in_map_iff in Hd. destruct Hd as (c & <- & _). apply Qabs_nonneg.
  - intros i Hi. rewrite (calculate_distances_nth omset cs i Hi). split.
    + intro H. apply Qabs_zero_inv in H. lra.
    + intro H. rewrite H. apply distance_to_itself.
Qed.

Lemma calculate_distances_nonneg_witness :
  nth 1 (calculate_distances 915000 centroids) 0 == 0
  <-> nth 1 centroids 0 == 915000.
Proof.
  apply (proj2 (calculate_distances_nonneg 915000 centroids) 1%nat).
  simpl. lia.
Defined.

Lemma assign_cluster_ok_inv (distances : list Q) (k : nat) :
  assign_cluster distances = Ok k ->
  exists i, k = (i + 1)%nat /\ first_minimum distances i.
Proof.
  intro Hk.
  assert (Hne : distances <> []).
  { intros ->. discriminate Hk. }
  destruct (assign_cluster_first_minimum distances Hne) as (i & Hi & Hmin).
  rewrite Hi in Hk. injection Hk as <-. exists i. split; [reflexivity | exact Hmin].
Qed.

(** X2: whenever [assign_cluster] returns, the cluster id lies between 1
    and the number of distances, and the distance at that position is a
    smallest one. *)
Theorem assign_cluster_in_range (distances : list Q) (k : nat) :
  assign_cluster distances = Ok k ->
  (1 <= k <= length distances)%nat /\
  forall d, In d distances -> nth (k - 1) distances 0 <= d.
Proof.
  intro Hk.
  destruct (assign_cluster_ok_inv distances k Hk) as (i & -> & Hlen & Hmin & _).
  split; [lia|]. intros d Hd.
  replace (i + 1 - 1)%nat with i by lia.
  destruct (In_nth distances d 0 Hd) as (j & Hj & <-). apply Hmin; exact Hj.
Qed.

Lemma assign_cluster_in_range_witness :
  (1 <= 2 <= length [5; 2; 7])%nat /\
  forall d, In d [5; 2; 7] -> nth (2 - 1) [5; 2; 7] 0 <= d.
Proof.
  apply (assign_cluster_in_range [5; 2; 7] 2%nat). reflexivity.
Defined.

(** *** With the subtraction rounded *)

Lemma rounding_zero (rnd : Q -> Q) : rounding rnd -> rnd 0 == 0.
Proof.
  intros (Hp & _ & Ho).
  assert (H : rnd (- 0) == rnd 0) by (apply Hp; reflexivity).
  rewrite (Ho 0) in H. lra.
Qed.

Lemma rounding_abs (rnd : Q -> Q) (x : Q) :
  rounding rnd -> Qabs (rnd x) == rnd (Qabs x).
Proof.
  intro Hr. pose proof (rounding_zero rnd Hr) as H0.
  destruct Hr as (Hp & Hm & Ho).
  destruct (Qlt_le_dec x 0) as [Hneg | Hpos].
  - assert (Hx : x <= 0) by lra.
    pose proof (Hm x 0 Hx) as Hrx. rewrite H0 in Hrx.
    rewrite (Qabs_neg (rnd x) Hrx).
    rewrite (Hp (Qabs x) (- x) (Qabs_neg x Hx)). symmetry. apply Ho.
  - pose proof (Hm 0 x Hpos) as Hrx. rewrite H0 in Hrx.
    rewrite (Qabs_pos (rnd x) Hrx).
    symmetry. apply Hp. apply Qabs_pos. exact Hpos.
Qed.

(** Rounding keeps the order of the distances; it can only make two of them
    equal. *)
Lemma rounded_distance_le (rnd : Q -> Q) (x y : Q) :
  rounding rnd -> Qabs x <= Qabs y -> Qabs (rnd x) <= Qabs (rnd y).
Proof.
  intros Hr Hxy. rewrite !(rounding_abs rnd) by exact Hr.
  destruct Hr as (_ & Hm & _). apply Hm. exact Hxy.
Qed.

Lemma round_to_halves_rounding : rounding round_to_halves.
Proof.
  unfold rounding, round_to_halves. repeat split.
  - intros x y Hxy. rewrite Hxy. reflexivity.
  - intros x y Hxy.
    pose proof (Qfloor_resp_le x y Hxy) as Hf.
    pose proof (Qceiling_resp_le x y Hxy) as Hc.
    assert (Hf' : inject_Z (Qfloor x) <= inject_Z (Qfloor y))
      by (unfold Qle; simpl; lia).
    assert (Hc' : inject_Z (Qceiling x) <= inject_Z (Qceiling y))
      by (unfold Qle; simpl; lia).
    lra.
  - intro x. unfold Qceiling.
    assert (Hxx : - - x == x) by ring. rewrite (Qfloor_comp _ _ Hxx).
    rewrite !inject_Z_opp. ring.
Qed.

(** The first minimum of the rounded distances sits no later than that of
    the exact ones. *)
Lemma rounded_first_minimum (rnd : Q -> Q) (v c1 c2 c3 : Q) :
  rounding rnd -> c1 < c2 -> c2 < c3 ->
  exists i,
    assign_cluster (calculate_distances_rounded rnd v [c1; c2; c3])
    = Ok (i + 1)%nat /\
    (i < 3)%nat /\
    (2 * v <= c1 + c2 -> i = 0%nat) /\
    (2 * v <= c2 + c3 -> (i <= 1)%nat).
Proof.
  intros Hr H12 H23.
  change (calculate_distances_rounded rnd v [c1; c2; c3])
    with [Qabs (rnd (v - c1)); Qabs (rnd (v - c2)); Qabs (rnd (v - c3))].
  destruct (assign_cluster_first_minimum
              [Qabs (rnd (v - c1)); Qabs (rnd (v - c2)); Qabs (rnd (v - c3))])
    as (i & Hi & Hlen & Hmin & Hfirst); [discriminate|].
  cbn [length] in Hlen.
  exists i. split; [exact Hi|]. split; [exact Hlen|]. split.
  - intro Hv.
    assert (D12 : Qabs (rnd (v - c1)) <= Qabs (rnd (v - c2)))
      by (apply rounded_distance_le; [exact Hr | abs_lra]).
    assert (D13 : Qabs (rnd (v - c1)) <= Qabs (rnd (v - c3)))
      by (apply rounded_distance_le; [exact Hr | abs_lra]).
    destruct i as [|[|[|i]]]; [reflexivity | exfalso | exfalso | lia].
    + specialize (Hfirst 0%nat). cbn [nth] in Hfirst.
      assert (Qabs (rnd (v - c2)) < Qabs (rnd (v - c1))) by (apply Hfirst; lia).
      lra.
    + specialize (Hfirst 0%nat). cbn [nth] in Hfirst.
      assert (Qabs (rnd (v - c3)) < Qabs (rnd (v - c1))) by (apply Hfirst; lia).
      lra.
  - intro Hv.
    assert (D23 : Qabs (rnd (v - c2)) <= Qabs (rnd (v - c3)))
      by (apply rounded_distance_le; [exact Hr | abs_lra]).
    destruct i as [|[|[|i]]]; [lia | lia | exfalso | lia].
    specialize (Hfirst 1%nat). cbn [nth] in Hfirst.
    assert (Qabs (rnd (v - c3)) < Qabs (rnd (v - c2))) by (apply Hfirst; lia).
    lra.
Qed.

(** X3: the midpoint rule that survives float rounding.  For three
    centroids in ascending order and any rounding of the subtraction that
    keeps the order and commutes with negation, the assigned cluster is 1, 2
    or 3 and is never above the cluster of the exact midpoint rule: a revenue
    up to the midpoint of centroids 1 and 2 gets cluster 1, a revenue up to
    the midpoint of centroids 2 and 3 gets cluster 1 or 2; so a revenue in
    cluster 2 or 3 lies above the first midpoint and a revenue in cluster 3
    above the second. *)
Theorem assign_cluster_rounded_midpoints (rnd : Q -> Q) (v c1 c2 c3 : Q) :
  rounding rnd -> c1 < c2 -> c2 < c3 ->
  exists k,
    assign_cluster (calculate_distances_rounded rnd v [c1; c2; c3]) = Ok k /\
    (1 <= k <= 3)%nat /\
    (2 * v <= c1 + c2 -> k = 1%nat) /\
    (2 * v <= c2 + c3 -> (k <= 2)%nat) /\
    ((2 <= k)%nat -> c1 + c2 < 2 * v) /\
    (k = 3%nat -> c2 + c3 < 2 * v).
Proof.
  intros Hr H12 H23.
  destruct (rounded_first_minimum rnd v c1 c2 c3 Hr H12 H23)
    as (i & Hi & Hlen & Low & Mid).
  exists (i + 1)%nat. split; [exact Hi|]. split; [lia|].
  split; [intro Hv; rewrite (Low Hv); reflexivity|].
  split; [intro Hv; specialize (Mid Hv); lia|]. split.
  - intro Hk. destruct (Qlt_le_dec (c1 + c2) (2 * v)) as [H | H]; [exact H|].
    specialize (Low H). lia.
  - intro Hk. destruct (Qlt_le_dec (c2 + c3) (2 * v)) as [H | H]; [exact H|].
    specialize (Mid H). lia.
Qed.

Lemma assign_cluster_rounded_midpoints_witness :
  exists k,
    assign_cluster (calculate_distances_rounded round_to_halves 2.6 [1; 2; 3])
    = Ok k /\
    (1 <= k <= 3)%nat /\
    (2 * 2.6 <= 1 + 2 -> k = 1%nat) /\
    (2 * 2.6 <= 2 + 3 -> (k <= 2)%nat) /\
    ((2 <= k)%nat -> 1 + 2 < 2 * 2.6) /\
    (k = 3%nat -> 2 + 3 < 2 * 2.6).
Proof.
  apply (assign_cluster_rounded_midpoints round_to_halves 2.6 1 2 3).
  - exact round_to_halves_rounding.
  - reflexivity.
  - reflexivity.
Defined.

(** X4: the revenue bands of the run.  With the centroids of [main],
    424000, 915000 and the float of the literal 689155580.85 (any value from
    that decimal upwards; the float is 689155580.85000002384185791015625),
    and any rounding of the subtraction that keeps the order and commutes
    with negation: a revenue up to 669500 gets cluster 1, a revenue up to
    345035290.425 gets cluster 1 or 2, a revenue in cluster 2 or 3 is above
    669500, and a revenue in cluster 3 is above 345035290.425. *)
Theorem main_cluster_bands (rnd : Q -> Q) (omset c3 : Q) :
  rounding rnd -> 689155580.85 <= c3 ->
  exists k,
    assign_cluster (calculate_distances_rounded rnd omset [424000; 915000; c3])
    = Ok k /\
    (1 <= k <= 3)%nat /\
    (omset <= 669500 -> k = 1%nat) /\
    (omset <= 345035290.425 -> (k <= 2)%nat) /\
    ((2 <= k)%nat -> 669500 < omset) /\
    (k = 3%nat -> 345035290.425 < omset).
Proof.
  intros Hr Hc3.
  destruct (rounded_first_minimum rnd omset 424000 915000 c3 Hr)
    as (i & Hi & Hlen & Low & Mid); [reflexivity | lra |].
  exists (i + 1)%nat. split; [exact Hi|]. split; [lia|].
  split; [intro H; rewrite Low by lra; reflexivity|].
  split; [intro H; assert (i <= 1)%nat by (apply Mid; lra); lia|]. split.
  - intro Hk. destruct (Qlt_le_dec 669500 omset) as [H | H]; [exact H|].
    assert (i = 0%nat) by (apply Low; lra). lia.
  - intro Hk. destruct (Qlt_le_dec 345035290.425 omset) as [H | H]; [exact H|].
    assert (i <= 1)%nat by (apply Mid; lra). lia.
Qed.

Lemma main_cluster_bands_witness :
  exists k,
    assign_cluster
      (calculate_distances_rounded round_to_halves 500000.3
         [424000; 915000; 689155580.85000002384185791015625])
    = Ok k /\
    (1 <= k <= 3)%nat /\
    (500000.3 <= 669500 -> k = 1%nat) /\
    (500000.3 <= 345035290.425 -> (k <= 2)%nat) /\
    ((2 <= k)%nat -> 669500 < 500000.3) /\
    (k = 3%nat -> 345035290.425 < 500000.3).
Proof.
  apply (main_cluster_bands round_to_halves 500000.3
           689155580.85000002384185791015625).
  - exact round_to_halves_rounding.
  - discriminate.
Defined.

(** Rounding can make the nearest centroid share its distance with an
    earlier one, and the earlier one then wins: 2.6 is nearest to 3, and with
    distances rounded to halves it is assigned cluster 2. *)
Example rounding_merges_distances :
  assign_cluster (calculate_distances 2.6 [1; 2; 3]) = Ok 3%nat /\
  assign_cluster (calculate_distances_rounded round_to_halves 2.6 [1; 2; 3])
  = Ok 2%nat.
Proof. split; reflexivity. Qed.

(** ** The run over the table *)

Lemma process_row_record (row : SalesRow) :
  exists r, process_row centroids row = Ok r /\ record_of_row row r.
Proof.
  unfold process_row.
  destruct (assign_cluster_first_minimum
              (calculate_distances (row_Omset row) centroids))
    as (i & Hi & Hlen & _); [discriminate|].
  rewrite Hi. cbn [bind]. eexists. split; [reflexivity|].
  unfold record_of_row. cbn [Data_id Nama_Toko nama_Produk Omset Distances
                               Calculated_Cluster Existing_Cluster].
  simpl in Hlen. repeat split; try exact Hi; lia.
Qed.

Lemma mapM_process_rows (df : list SalesRow) :
  exists rs, mapM (process_row centroids) df = Ok rs /\
             Forall2 record_of_row df rs.
Proof.
  induction df as [|row df (rs & Hrs & Hall)]; simpl.
  - exists []. split; [reflexivity | constructor].
  - destruct (process_row_record row) as (r & -> & Hr). rewrite Hrs. simpl.
    exists (r :: rs). split; [reflexivity | constructor; assumption].
Qed.

Lemma main_results_ok (df : list SalesRow) :
  exists rs, main_results df = Ok rs /\ Forall2 record_of_row df rs.
Proof.
  destruct (mapM_process_rows df) as (rs & Hrs & Hall).
  exists rs. unfold main_results. rewrite main_loop_mapM, Hrs. simpl.
  split; [reflexivity | exact Hall].
Qed.

Lemma records_in_range (df : list SalesRow) (rs : list ResultRow) :
  Forall2 record_of_row df rs -> clusters_in_range rs.
Proof.
  unfold clusters_in_range.
  induction 1 as [|row r df rs Hr _ IH]; constructor; [|exact IH].
  destruct Hr as (_ & _ & _ & _ & _ & _ & Hrange & _). exact Hrange.
Qed.

(** X6: the loop of [main] never raises: for every loaded table it yields
    one result record per row, in the order of the rows, each with the row's
    id, shop, product and revenue, the distances of the revenue to the three
    centroids, the cluster [assign_cluster] gives for them (1, 2 or 3) and
    the label of the flags. *)
Theorem main_results_records (df : list SalesRow) :
  exists rs,
    main_results df = Ok rs /\
    length rs = length df /\
    Forall2 record_of_row df rs /\
    clusters_in_range rs.
Proof.
  destruct (main_results_ok df) as (rs & Hrs & Hall).
  exists rs. split; [exact Hrs|]. split; [|split; [exact Hall|]].
  - symmetry. eapply Forall2_length; exact Hall.
  - eapply records_in_range; exact Hall.
Qed.

(** ** The summary sheet *)

Lemma calc_count_cons (r : ResultRow) (rs : list ResultRow) (k : nat) :
  calc_count (r :: rs) k
  = ((if (Calculated_Cluster r =? k)%nat then 1 else 0) + calc_count rs k)%nat.
Proof.
  unfold calc_count. simpl. destruct (Calculated_Cluster r =? k)%nat; reflexivity.
Qed.

Lemma calc_counts_add_up (rs : list ResultRow) :
  clusters_in_range rs ->
  (calc_count rs 1 + calc_count rs 2 + calc_count rs 3 = length rs)%nat.
Proof.
  induction 1 as [|r rs Hr _ IH]; [reflexivity|].
  rewrite !calc_count_cons. simpl length.
  destruct (Nat.eqb_spec (Calculated_Cluster r) 1);
    destruct (Nat.eqb_spec (Calculated_Cluster r) 2);
    destruct (Nat.eqb_spec (Calculated_Cluster r) 3); lia.
Qed.

(** X7: in the summary of a run the three calculated-cluster counts add up
    to the total number of records: every record is counted in exactly one
    cluster. *)
Theorem calculated_counts_partition (df : list SalesRow) :
  df <> [] ->
  exists rs s,
    main_results df = Ok rs /\
    summary_data rs = Ok s /\
    Total_Records s = length df /\
    fold_right Nat.add 0%nat (Count_Calculated s) = Total_Records s.
Proof.
  intro Hne.
  destruct (main_results_ok df) as (rs & Hrs & Hall).
  pose proof (records_in_range df rs Hall) as Hrange.
  assert (Hlen : length rs = length df)
    by (symmetry; eapply Forall2_length; exact Hall).
  assert (Hrs_ne : rs <> []).
  { destruct rs; [destruct df; [congruence | discriminate] | discriminate]. }
  exists rs. eexists. split; [exact Hrs|].
  rewrite (summary_data_nonempty rs Hrs_ne). split; [reflexivity|].
  cbn [Total_Records Count_Calculated map fold_right].
  split; [exact Hlen|].
  rewrite <- (calc_counts_add_up rs Hrange). lia.
Qed.

Lemma exist_count_cons (r : ResultRow) (rs : list ResultRow) (k : nat) :
  exist_count (r :: rs) k
  = ((if cluster_eq k (Existing_Cluster r) then 1 else 0)
     + exist_count rs k)%nat.
Proof.
  unfold exist_count. simpl. destruct (cluster_eq k (Existing_Cluster r)); reflexivity.
Qed.

Lemma existing_cluster_cases (row : SalesRow) :
  existing_cluster row = Some 1%nat \/ existing_cluster row = Some 2%nat \/
  existing_cluster row = Some 3%nat \/ existing_cluster row = None.
Proof.
  unfold existing_cluster.
  destruct (py_eq_str (Kluster_1 row) "1"), (py_eq_str (Kluster_2 row) "1"),
    (py_eq_str (Kluster_3 row) "1"); tauto.
Qed.

(** X8: in the summary of a run the three existing-cluster counts and the
    number of records without a label add up to the total number of
    records. *)
Theorem existing_counts_partition (df : list SalesRow) :
  df <> [] ->
  exists rs s,
    main_results df = Ok rs /\
    summary_data rs = Ok s /\
    (fold_right Nat.add 0%nat (Count_Existing s) + unlabelled_count rs
     = Total_Records s)%nat.
Proof.
  intro Hne.
  destruct (main_results_ok df) as (rs & Hrs & Hall).
  assert (Hlen : length rs = length df)
    by (symmetry; eapply Forall2_length; exact Hall).
  assert (Hrs_ne : rs <> []).
  { destruct rs; [destruct df; [congruence | discriminate] | discriminate]. }
  exists rs. eexists. split; [exact Hrs|].
  rewrite (summary_data_nonempty rs Hrs_ne). split; [reflexivity|].
  cbn [Total_Records Count_Existing map fold_right].
  clear Hrs Hlen Hne Hrs_ne.
  induction Hall as [|row r df rs Hr _ IH]; [reflexivity|].
  rewrite !exist_count_cons. unfold unlabelled_count in *. simpl length.
  simpl filter.
  destruct Hr as (_ & _ & _ & _ & _ & _ & _ & Hex).
  destruct (existing_cluster_cases row) as [H | [H | [H | H]]];
    rewrite Hex, H; simpl; lia.
Qed.

Lemma cluster_ne_negb (c : nat) (e : option nat) :
  cluster_ne c e = negb (cluster_eq c e).
Proof. destruct e; reflexivity. Qed.

Lemma matching_plus_mismatches (results_df : list ResultRow) :
  (matching_clusters results_df + length (mismatches results_df)
   = length results_df)%nat.
Proof.
  unfold matching_clusters, mismatches.
  induction results_df as [|r rs IH]; [reflexivity|]. simpl.
  rewrite cluster_ne_negb.
  destruct (cluster_eq (Calculated_Cluster r) (Existing_Cluster r));
    simpl; lia.
Qed.

Lemma mismatches_nil_iff (results_df : list ResultRow) :
  mismatches results_df = [] <->
  matching_clusters results_df = length results_df.
Proof.
  pose proof (matching_plus_mismatches results_df) as Hsum.
  split; intro H.
  - rewrite H in Hsum. simpl in Hsum. lia.
  - destruct (mismatches results_df); [reflexivity | simpl in Hsum; lia].
Qed.

(** X9: the Mismatches sheet holds exactly the records not counted as
    matching, in table order: every record is either counted in Matching
    Clusters or listed in Mismatches, never both, and a record without an
    existing label is always listed. *)
Theorem mismatches_complement (results_df : list ResultRow) :
  (matching_clusters results_df + length (mismatches results_df)
   = length results_df)%nat /\
  (forall r, In r (mismatches results_df) <->
             In r results_df /\ ~ labels_agree r) /\
  (forall r, In r results_df -> Existing_Cluster r = None ->
             In r (mismatches results_df)) /\
  (mismatches results_df = [] <->
   matching_clusters results_df = length results_df).
Proof.
  pose proof (matching_plus_mismatches results_df) as Hsum.
  assert (Hin : forall r, In r (mismatches results_df) <->
                          In r results_df /\ ~ labels_agree r).
  { intro r. unfold mismatches. rewrite filter_In, cluster_ne_negb.
    rewrite <- cluster_eq_iff.
    destruct (cluster_eq (Calculated_Cluster r) (Existing_Cluster r)); simpl;
      intuition congruence. }
  split; [exact Hsum|]. split; [exact Hin|]. split.
  - intros r Hr Hnone. apply Hin. split; [exact Hr|].
    unfold labels_agree. rewrite Hnone. discriminate.
  - apply mismatches_nil_iff.
Qed.

Lemma mismatches_complement_witness :
  In (Build_ResultRow (PInt 4) (PStr "Toko D") "teh" 200000 1 None [])
    (mismatches example_results).
Proof.
  apply (proj1 (proj2 (proj2 (mismatches_complement example_results)))).
  - simpl. tauto.
  - reflexivity.
Defined.

(** X10: the match percentage of a non-empty table lies between 0 and 100;
    it is 100 exactly when the Mismatches sheet is empty and 0 exactly when
    no record matches. *)
Theorem match_percentage_bounds (results_df : list ResultRow) :
  results_df <> [] ->
  exists s,
    summary_data results_df = Ok s /\
    0 <= Match_Percentage s <= 100 /\
    (Match_Percentage s == 100 <-> mismatches results_df = []) /\
    (Match_Percentage s == 0 <-> Matching_Clusters s = 0%nat).
Proof.
  intro Hne. rewrite (summary_data_nonempty results_df Hne).
  eexists. split; [reflexivity|].
  cbn [Match_Percentage Matching_Clusters].
  pose proof (matching_plus_mismatches results_df) as Hsum.
  pose proof (mismatches_nil_iff results_df) as Hall.
  set (m := matching_clusters results_df) in *.
  set (n := length results_df) in *.
  assert (Hn : (0 < n)%nat).
  { unfold n. destruct results_df; [congruence | simpl; lia]. }
  assert (Hmn : (m <= n)%nat) by lia.
  assert (HnQ : 0 < inject_Z (Z.of_nat n)).
  { unfold Qlt. simpl. lia. }
  assert (HmQ : 0 <= inject_Z (Z.of_nat m)).
  { unfold Qle. simpl. lia. }
  assert (HmnQ : inject_Z (Z.of_nat m) <= inject_Z (Z.of_nat n)).
  { unfold Qle. simpl. lia. }
  assert (Hratio : forall x, inject_Z (Z.of_nat m) / inject_Z (Z.of_nat n) * 100 == x
                             <-> 100 * inject_Z (Z.of_nat m)
                                 == x * inject_Z (Z.of_nat n)).
  { intro x. split; intro H.
    - rewrite <- H. field. lra.
    - assert (E : x == 100 * inject_Z (Z.of_nat m) / inject_Z (Z.of_nat n)).
      { rewrite H. field. lra. }
      rewrite E. field. lra. }
  split; [|split].
  - split.
    + apply Qmult_le_0_compat; [|lra].
      apply Qle_shift_div_l; [exact HnQ | lra].
    + assert (H : inject_Z (Z.of_nat m) / inject_Z (Z.of_nat n) <= 1).
      { apply Qle_shift_div_r; [exact HnQ | lra]. }
      lra.
  - rewrite Hratio, Hall. split; intro H.
    + assert (E : inject_Z (Z.of_nat m) == inject_Z (Z.of_nat n)) by lra.
      unfold Qeq in E. simpl in E. lia.
    + rewrite H. lra.
  - rewrite Hratio. split; intro H.
    + assert (E : inject_Z (Z.of_nat m) == 0) by lra.
      unfold Qeq in E. simpl in E. lia.
    + rewrite H. change (inject_Z (Z.of_nat 0)) with 0. lra.
Qed.

Lemma match_percentage_bounds_witness :
  exists s,
    summary_data example_results = Ok s /\
    0 <= Match_Percentage s <= 100 /\
    (Match_Percentage s == 100 <-> mismatches example_results = []) /\
    (Match_Percentage s == 0 <-> Matching_Clusters s = 0%nat).
Proof.
  apply (match_percentage_bounds example_results). discriminate.
Defined.

Lemma calculated_counts_partition_witness :
  exists rs s,
    main_results example_df = Ok rs /\
    summary_data rs = Ok s /\
    Total_Records s = length example_df /\
    fold_right Nat.add 0%nat (Count_Calculated s) = Total_Records s.
Proof.
  apply (calculated_counts_partition example_df). discriminate.
Defined.

Lemma existing_counts_partition_witness :
  exists rs s,
    main_results example_df = Ok rs /\
    summary_data rs = Ok s /\
    (fold_right Nat.add 0%nat (Count_Existing s) + unlabelled_count rs
     = Total_Records s)%nat.
Proof.
  apply (existing_counts_partition example_df). discriminate.
Defined.

(** ** The centroid sheet *)





(** ** The loader *)

Lemma str_replace_no_comma (text : string) :
  ~ In ","%char (list_ascii_of_string text) ->
  str_replace "," "" text = text.
Proof.
  induction text as [|c text IH]; simpl; [reflexivity|]. intro H.
  destruct (Ascii.eqb_spec c ",") as [-> | _]; [tauto|].
  rewrite IH by tauto. reflexivity.
Qed.

(** X14: the comma removal is idempotent and changes no other character:
    its result holds no comma, removing commas again changes nothing, a text
    without commas is left as it is, and so loading the cleaned text gives
    what loading the original gives. *)
Theorem str_replace_comma_idempotent (text : string) :
  ~ In ","%char (list_ascii_of_string (str_replace "," "" text)) /\
  str_replace "," "" (str_replace "," "" text) = str_replace "," "" text /\
  (~ In ","%char (list_ascii_of_string text) ->
   str_replace "," "" text = text) /\
  load_omset (str_replace "," "" text) = load_omset text.
Proof.
  assert (Hclean : ~ In ","%char (list_ascii_of_string (str_replace "," "" text))).
  { rewrite str_replace_comma_filter. intro H. apply filter_In in H.
    destruct H as [_ H]. rewrite Ascii.eqb_refl in H. discriminate. }
  assert (Hidem : str_replace "," "" (str_replace "," "" text)
                  = str_replace "," "" text).
  { apply str_replace_no_comma. exact Hclean. }
  split; [exact Hclean|]. split; [exact Hidem|].
  split; [apply str_replace_no_comma|].
  unfold load_omset. rewrite Hidem. reflexivity.
Qed.

Lemma str_replace_comma_idempotent_witness :
  str_replace "," "" "915000.00" = "915000.00"%string.
Proof.
  apply (proj1 (proj2 (proj2 (str_replace_comma_idempotent "915000.00")))).
  simpl. intuition discriminate.
Defined.

(** *** Decimal numerals *)

Lemma numeral_digits (d : Decimal.uint) :
  forallb is_digit
    (list_ascii_of_string (DecimalString.NilEmpty.string_of_uint d)) = true.
Proof. induction d; simpl; auto. Qed.

Lemma numeral_value (d : Decimal.uint) (a : nat) :
  fold_left (fun acc c => 10 * acc + digit_value c)%Z
    (list_ascii_of_string (DecimalString.NilEmpty.string_of_uint d))
    (Z.of_nat a)
  = Z.of_nat (Nat.of_uint_acc d a).
Proof.
  revert a. induction d as [|d IH|d IH|d IH|d IH|d IH|d IH|d IH|d IH|d IH|d IH];
    intro a;
    cbn [DecimalString.NilEmpty.string_of_uint list_ascii_of_string fold_left
         Nat.of_uint_acc];
    [reflexivity|..];
    rewrite <- IH; f_equal; rewrite Nat.tail_mul_spec;
    vm_compute (digit_value _); lia.
Qed.

Lemma numeral_nonempty (n : nat) :
  list_ascii_of_string (py_str_nat n) <> [].
Proof.
  unfold py_str_nat.
  assert (H : Nat.to_uint n <> Decimal.Nil).
  { rewrite <- (DecimalNat.Unsigned.of_to n) at 1.
    rewrite DecimalNat.Unsigned.to_of. apply DecimalFacts.unorm_nonnil. }
  destruct (Nat.to_uint n); try congruence; discriminate.
Qed.

Lemma parse_number_digits (ds : list ascii) :
  forallb is_digit ds = true -> ds <> [] ->
  exists q, parse_number ds = Some q /\ q == inject_Z (digits_value ds).
Proof.
  intros Hds Hne. unfold parse_number.
  pose proof (span_digits ds [] Hds I) as Hspan. rewrite app_nil_r in Hspan.
  rewrite Hspan. cbv beta iota. rewrite app_nil_r.
  destruct ds as [|d ds']; [congruence|].
  eexists. split; [reflexivity|].
  change (parse_exponent []) with (Some 0%Z). cbv beta iota.
  change (Qpower 10 (0 - Z.of_nat (length (@nil ascii)))) with 1. ring.
Qed.

(** X15: writing and loading a revenue round-trip: for every natural number
    [n] up to 2^53 (every such number is a float, so the conversion does
    not round), a text that is the decimal numeral of [n] once its commas are
    removed, whatever commas it holds, is loaded as the number [n]. *)
Theorem load_omset_numeral (n : nat) (text : string) :
  (Z.of_nat n <= 2 ^ 53)%Z ->
  str_replace "," "" text = py_str_nat n ->
  exists q, load_omset text = Ok (PFin q) /\ q == inject_Z (Z.of_nat n).
Proof.
  intros _ Htext. unfold load_omset. rewrite Htext.
  set (ds := list_ascii_of_string (py_str_nat n)).
  assert (Hds : forallb is_digit ds = true) by apply numeral_digits.
  assert (Hne : ds <> []) by apply numeral_nonempty.
  assert (Hval : digits_value ds = Z.of_nat n).
  { unfold digits_value, ds, py_str_nat.
    change 0%Z with (Z.of_nat 0). rewrite numeral_value.
    change (Nat.of_uint_acc (Nat.to_uint n) 0) with (Nat.of_uint (Nat.to_uint n)).
    rewrite DecimalNat.Unsigned.of_to. reflexivity. }
  destruct (parse_number_digits ds Hds Hne) as (q & Hq & Hqv).
  exists q. split; [|rewrite Hqv, Hval; reflexivity].
  destruct ds as [|c t] eqn:E; [congruence|].
  assert (Hc : is_digit c = true).
  { simpl in Hds. apply andb_true_iff in Hds. tauto. }
  assert (Hstart : number_start c = true).
  { unfold number_start. rewrite Hc. reflexivity. }
  destruct (number_start_plain c Hstart) as (Hminus & Hplus & _).
  rewrite (py_float_plain (py_str_nat n) c t E).
  - unfold split_sign. rewrite Hminus, Hplus.
    rewrite (parse_inf_or_nan_number false c t Hstart), Hq. reflexivity.
  - apply Forall_forall. intros a Ha. apply digit_decimal_char.
    rewrite forallb_forall in Hds. apply Hds. exact Ha.
Qed.

Lemma load_omset_numeral_witness :
  exists q, load_omset "1,234" = Ok (PFin q) /\
            q == inject_Z (Z.of_nat 1234).
Proof.
  apply (load_omset_numeral 1234 "1,234"); [vm_compute; discriminate | reflexivity].
Defined.
